(** * Settings synchronisation (src/lib/data-manager.ts, AuthProvider)

    A shallow embedding of the synchronisation layer of the application:
    the browser's [localStorage], the [JSON] built-ins the module calls,
    the Supabase client it talks to (backed by the [user_settings] and
    [profiles] tables of the SQL migrations), the five functions of
    [data-manager.ts] and the [onAuthStateChange] callback of
    [AuthProvider].

    Strings are Rocq strings holding text in UTF-8.  A JSON number is
    carried as the literal it was read from, which stands for the double it
    denotes: the module never computes with numbers, it only tests them
    for zero or for being positive, and [JSON_stringify] writes the
    shortest decimal that reads back as that double, or [null] when the
    double is not finite.  [localStorage] never runs out of
    room, so [setItem] does not throw.  The module's [async] functions are
    run to completion one after the other, each [await] resolving at once;
    the one call that is not awaited is marked as such. *)

From Stdlib Require Import Ascii String ZArith Lia.
From stdpp Require Import base gmap strings list.


(* ===================================================================== *)
(** * JavaScript completions *)
(* ===================================================================== *)

(** The two exceptions the built-ins used by the module can raise. *)
Inductive exn : Type :=
| SyntaxError   (* JSON.parse on text that is not JSON *)
| TypeError.    (* property access on null, failed ToPrimitive *)

(** A JavaScript evaluation either completes normally or throws. *)
Inductive completion (A : Type) : Type :=
| Normal (a : A)
| Throw (e : exn).
Arguments Normal {A} a.
Arguments Throw {A} e.

#[global] Instance completion_ret : MRet completion := λ A a, Normal a.
#[global] Instance completion_fmap : FMap completion := λ A B f c,
  match c with
  | Normal a => Normal (f a)
  | Throw e => Throw e
  end.
#[global] Instance completion_bind : MBind completion := λ A B f c,
  match c with
  | Normal a => f a
  | Throw e => Throw e
  end.

(* ===================================================================== *)
(** * JSON values and the JSON built-ins *)
(* ===================================================================== *)

Module Json.

(** The values [JSON.parse] can produce.  An object is kept as its list of
    own properties in enumeration order. *)
#[local] Unset Elimination Schemes.
Inductive json : Type :=
| JNull
| JBool (b : bool)
| JNum (lit : string)
| JStr (s : string)
| JArr (items : list json)
| JObj (props : list (string * json)).
#[local] Set Elimination Schemes.

Definition object : Type := list (string * json).

(** ** Characters *)

(** The number of a character. *)
Definition ord (a : ascii) : N := N_of_ascii a.

Definition is_digit (a : ascii) : bool := (48 <=? ord a)%N && (ord a <=? 57)%N.

Definition digit_val (a : ascii) : Z := Z.of_N (ord a) - 48.

Definition hex_val (a : ascii) : option N :=
  let c := ord a in
  if (48 <=? c)%N && (c <=? 57)%N then Some (c - 48)%N
  else if (97 <=? c)%N && (c <=? 102)%N then Some (c - 87)%N
  else if (65 <=? c)%N && (c <=? 70)%N then Some (c - 55)%N
  else None.

Definition hex_digit (n : N) : ascii :=
  if (n <? 10)%N then ascii_of_N (48 + n) else ascii_of_N (87 + n).

(** The four white space characters of the JSON grammar. *)
Definition is_json_ws (a : ascii) : bool :=
  let c := ord a in
  (c =? 32)%N || (c =? 9)%N || (c =? 10)%N || (c =? 13)%N.

Fixpoint skip_ws (s : list ascii) : list ascii :=
  match s with
  | a :: r => if is_json_ws a then skip_ws r else s
  | [] => []
  end.

(** ** Own properties of an object *)

Fixpoint obj_get (k : string) (o : object) : option json :=
  match o with
  | [] => None
  | (k', v) :: r => if String.eqb k k' then Some v else obj_get k r
  end.

Definition obj_has (k : string) (o : object) : bool :=
  match obj_get k o with Some _ => true | None => false end.

(** The rest pattern [{ k1, k2, ...rest } = o]. *)
Definition obj_rest (ks : list string) (o : object) : object :=
  filter (λ kv, kv.1 ∉ ks) o.

Fixpoint all_digits (s : list ascii) : bool :=
  match s with
  | [] => true
  | a :: r => is_digit a && all_digits r
  end.

Fixpoint digits_val (acc : Z) (s : list ascii) : Z :=
  match s with
  | [] => acc
  | a :: r => digits_val (10 * acc + digit_val a) r
  end.

(** A property key that is an array index ("0", "1", ... up to 2^32-2 in
    canonical form): such keys are enumerated first, in ascending order. *)
Definition array_index (k : string) : option Z :=
  match list_ascii_of_string k with
  | [] => None
  | a :: r =>
      if all_digits (a :: r)
         && (negb (ord a =? 48)%N || match r with [] => true | _ => false end)
      then let n := digits_val 0 (a :: r) in
           if (n <=? 4294967294)%Z then Some n else None
      else None
  end.

(** Adding a new index key keeps the index keys sorted before the others. *)
Fixpoint obj_add_index (n : Z) (k : string) (v : json) (o : object) : object :=
  match o with
  | [] => [(k, v)]
  | (k', v') :: r =>
      match array_index k' with
      | Some n' => if (n' <? n)%Z then (k', v') :: obj_add_index n k v r
                   else (k, v) :: o
      | None => (k, v) :: o
      end
  end.

Fixpoint obj_replace (k : string) (v : json) (o : object) : object :=
  match o with
  | [] => []
  | (k', v') :: r =>
      if String.eqb k k' then (k, v) :: r else (k', v') :: obj_replace k v r
  end.

(** [CreateDataProperty]: an existing key keeps its place and takes the new
    value; a new key is added in enumeration order. *)
Definition obj_set (k : string) (v : json) (o : object) : object :=
  if obj_has k o then obj_replace k v o
  else match array_index k with
       | Some n => obj_add_index n k v o
       | None => o ++ [(k, v)]
       end.

(** ** Strings of a JSON text *)

(** A character of a string literal: a byte of the text as it stands, or a
    UTF-16 code unit written as an escape. *)
Inductive item : Type :=
| Raw (a : ascii)
| Unit (n : N).

Definition hex4 (a b c d : ascii) : option N :=
  match hex_val a, hex_val b, hex_val c, hex_val d with
  | Some x, Some y, Some z, Some w => Some (((x * 16 + y) * 16 + z) * 16 + w)%N
  | _, _, _, _ => None
  end.

(** Reads the characters of a string literal after its opening quote, up
    to and including the closing quote. *)
Fixpoint string_items (acc : list item) (s : list ascii) : option (list item * list ascii) :=
  match s with
  | [] => None
  | a :: r =>
      let c := ord a in
      if (c =? 34)%N then Some (rev acc, r)
      else if (c <? 32)%N then None
      else if (c =? 92)%N then
        match r with
        | e :: r1 =>
            let ce := ord e in
            if (ce =? 34)%N then string_items (Raw e :: acc) r1
            else if (ce =? 92)%N then string_items (Raw e :: acc) r1
            else if (ce =? 47)%N then string_items (Raw e :: acc) r1
            else if (ce =? 98)%N then string_items (Unit 8 :: acc) r1
            else if (ce =? 102)%N then string_items (Unit 12 :: acc) r1
            else if (ce =? 110)%N then string_items (Unit 10 :: acc) r1
            else if (ce =? 114)%N then string_items (Unit 13 :: acc) r1
            else if (ce =? 116)%N then string_items (Unit 9 :: acc) r1
            else if (ce =? 117)%N then
              match r1 with
              | h1 :: h2 :: h3 :: h4 :: r2 =>
                  match hex4 h1 h2 h3 h4 with
                  | Some n => string_items (Unit n :: acc) r2
                  | None => None
                  end
              | _ => None
              end
            else None
        | [] => None
        end
      else string_items (Raw a :: acc) r
  end.

Definition is_high_surrogate (n : N) : bool := (55296 <=? n)%N && (n <=? 56319)%N.
Definition is_low_surrogate (n : N) : bool := (56320 <=? n)%N && (n <=? 57343)%N.

(** UTF-8 of a code point (a lone surrogate takes the three-byte form). *)
Definition utf8 (n : N) : list ascii :=
  if (n <? 128)%N then [ascii_of_N n]
  else if (n <? 2048)%N then
    [ascii_of_N (192 + n / 64); ascii_of_N (128 + n mod 64)]
  else if (n <? 65536)%N then
    [ascii_of_N (224 + n / 4096); ascii_of_N (128 + (n / 64) mod 64);
     ascii_of_N (128 + n mod 64)]
  else
    [ascii_of_N (240 + n / 262144); ascii_of_N (128 + (n / 4096) mod 64);
     ascii_of_N (128 + (n / 64) mod 64); ascii_of_N (128 + n mod 64)].

(** A surrogate that stands in the text as three raw bytes is a code unit
    like an escaped one. *)
Fixpoint raw_surrogates (l : list item) : list item :=
  match l with
  | Raw a :: r =>
      match r with
      | Raw b :: Raw c :: r' =>
          if (ord a =? 237)%N && (160 <=? ord b)%N && (ord b <=? 191)%N
             && (128 <=? ord c)%N && (ord c <=? 191)%N
          then Unit (53248 + (ord b - 128) * 64 + (ord c - 128)) :: raw_surrogates r'
          else Raw a :: raw_surrogates r
      | _ => Raw a :: raw_surrogates r
      end
  | Unit n :: r => Unit n :: raw_surrogates r
  | [] => []
  end.

(** The text of the string: a high surrogate followed by a low one is one
    code point. *)
Fixpoint items_text (l : list item) : list ascii :=
  match l with
  | [] => []
  | Raw a :: r => a :: items_text r
  | Unit n :: r =>
      match r with
      | Unit m :: r' =>
          if is_high_surrogate n && is_low_surrogate m
          then utf8 (65536 + (n - 55296) * 1024 + (m - 56320)) ++ items_text r'
          else utf8 n ++ items_text r
      | _ => utf8 n ++ items_text r
      end
  end.

Definition parse_string (s : list ascii) : option (string * list ascii) :=
  match string_items [] s with
  | Some (its, r) => Some (string_of_list_ascii (items_text (raw_surrogates its)), r)
  | None => None
  end.

(** ** Numbers of a JSON text *)

Fixpoint span_digits (s : list ascii) : list ascii * list ascii :=
  match s with
  | a :: r => if is_digit a then let '(d, r') := span_digits r in (a :: d, r')
              else ([], s)
  | [] => ([], [])
  end.

(** A number of the JSON grammar: an optional minus sign, an integer part
    without a leading zero (unless it is the single digit 0), an optional
    fraction with at least one digit, an optional exponent. *)
Definition parse_number (s : list ascii) : option (string * list ascii) :=
  let '(sign, s1) :=
    match s with
    | a :: r => if (ord a =? 45)%N then ([a], r) else ([], s)
    | [] => ([], s)
    end in
  let '(int, s2) := span_digits s1 in
  match int with
  | [] => None
  | d :: ds =>
      if (ord d =? 48)%N && negb (match ds with [] => true | _ => false end)
      then (* a leading zero ends the integer part *)
        None
      else
        let frac :=
          match s2 with
          | p :: r =>
              if (ord p =? 46)%N then
                let '(f, r') := span_digits r in
                match f with [] => None | _ => Some (p :: f, r') end
              else Some ([], s2)
          | [] => Some ([], s2)
          end in
        match frac with
        | None => None
        | Some (f, s3) =>
            let exp :=
              match s3 with
              | e :: r =>
                  if (ord e =? 101)%N || (ord e =? 69)%N then
                    let '(sg, r1) :=
                      match r with
                      | g :: r0 => if (ord g =? 43)%N || (ord g =? 45)%N
                                   then ([g], r0) else ([], r)
                      | [] => ([], r)
                      end in
                    let '(x, r2) := span_digits r1 in
                    match x with [] => None | _ => Some (e :: sg ++ x, r2) end
                  else Some ([], s3)
              | [] => Some ([], s3)
              end in
            match exp with
            | None => None
            | Some (x, s4) =>
                Some (string_of_list_ascii (sign ++ int ++ f ++ x), s4)
            end
        end
  end.

(** ** [JSON.parse] *)

Inductive presult : Type :=
| POk (v : json) (rest : list ascii)
| PErr
| PFuel.

Fixpoint strip_prefix (p s : list ascii) : option (list ascii) :=
  match p, s with
  | [], _ => Some s
  | a :: p', b :: s' => if Ascii.eqb a b then strip_prefix p' s' else None
  | _ :: _, [] => None
  end.

Definition parse_literal (s : list ascii) : presult :=
  match strip_prefix (list_ascii_of_string "true") s with
  | Some r => POk (JBool true) r
  | None =>
  match strip_prefix (list_ascii_of_string "false") s with
  | Some r => POk (JBool false) r
  | None =>
  match strip_prefix (list_ascii_of_string "null") s with
  | Some r => POk JNull r
  | None =>
  match parse_number s with
  | Some (lit, r) => POk (JNum lit) r
  | None => PErr
  end end end end.

(** One value, after optional white space.  Every call takes one unit of
    fuel; [JSON_parse] supplies enough of it. *)
Fixpoint parse_value (fuel : nat) (s : list ascii) : presult :=
  match fuel with
  | 0 => PFuel
  | S f =>
      match skip_ws s with
      | [] => PErr
      | a :: r =>
          let c := ord a in
          if (c =? 123)%N then
            match skip_ws r with
            | b :: r' => if (ord b =? 125)%N then POk (JObj []) r'
                         else parse_members f [] r
            | [] => PErr
            end
          else if (c =? 91)%N then
            match skip_ws r with
            | b :: r' => if (ord b =? 93)%N then POk (JArr []) r'
                         else parse_elements f [] r
            | [] => PErr
            end
          else if (c =? 34)%N then
            match parse_string r with
            | Some (str, r') => POk (JStr str) r'
            | None => PErr
            end
          else parse_literal (a :: r)
      end
  end

with parse_elements (fuel : nat) (acc : list json) (s : list ascii) : presult :=
  match fuel with
  | 0 => PFuel
  | S f =>
      match parse_value f s with
      | POk v r =>
          match skip_ws r with
          | a :: r' =>
              if (ord a =? 44)%N then parse_elements f (v :: acc) r'
              else if (ord a =? 93)%N then POk (JArr (rev (v :: acc))) r'
              else PErr
          | [] => PErr
          end
      | e => e
      end
  end

with parse_members (fuel : nat) (acc : object) (s : list ascii) : presult :=
  match fuel with
  | 0 => PFuel
  | S f =>
      match skip_ws s with
      | q :: r =>
          if (ord q =? 34)%N then
            match parse_string r with
            | Some (k, r1) =>
                match skip_ws r1 with
                | c :: r2 =>
                    if (ord c =? 58)%N then
                      match parse_value f r2 with
                      | POk v r3 =>
                          match skip_ws r3 with
                          | a :: r4 =>
                              if (ord a =? 44)%N then parse_members f (obj_set k v acc) r4
                              else if (ord a =? 125)%N then POk (JObj (obj_set k v acc)) r4
                              else PErr
                          | [] => PErr
                          end
                      | e => e
                      end
                    else PErr
                | [] => PErr
                end
            | None => PErr
            end
          else PErr
      | [] => PErr
      end
  end.

Definition parse_fuel (s : list ascii) : nat := 2 * length s + 3.

(** [JSON.parse(text)]: the text must be one value between optional white
    space; anything else is a [SyntaxError]. *)
Definition JSON_parse (text : string) : completion json :=
  let s := list_ascii_of_string text in
  match parse_value (parse_fuel s) s with
  | POk v r => match skip_ws r with
               | [] => Normal v
               | _ :: _ => Throw SyntaxError
               end
  | PErr => Throw SyntaxError
  | PFuel => Throw SyntaxError
  end.

(** A result of the parser that is not a lack of fuel, and that leaves
    less text than it was given. *)
Definition consumes (s : list ascii) (p : presult) : Prop :=
  p ≠ PFuel ∧ ∀ v r, p = POk v r → length r < length s.

(** ** Numbers as doubles

    A number is carried as the literal it was read from; [JSON.stringify]
    writes the double that literal denotes. *)

(** A decimal literal [digits . digits e exponent] (the integer part or the
    fraction may be missing, not both): its digits as an integer [m] and
    the power of ten [e], the value being [m * 10^e]. *)
Definition dec_literal (s : list ascii) : option (Z * Z) :=
  let '(int, s1) := span_digits s in
  let '(dot, frac, s2) :=
    match s1 with
    | p :: r => if (ord p =? 46)%N
                then let '(f, r') := span_digits r in (true, f, r')
                else (false, [], s1)
    | [] => (false, [], s1)
    end in
  if match int, frac with [], [] => true | _, _ => false end then None
  else
    let m := digits_val 0 (int ++ frac) in
    let fd := Z.of_nat (length frac) in
    match s2 with
    | [] => Some (m, - fd)
    | e :: r =>
        if (ord e =? 101)%N || (ord e =? 69)%N then
          let '(neg, r1) :=
            match r with
            | g :: r0 => if (ord g =? 45)%N then (true, r0)
                         else if (ord g =? 43)%N then (false, r0)
                         else (false, r)
            | [] => (false, r)
            end in
          match r1 with
          | [] => None
          | _ :: _ =>
              if all_digits r1
              then let x := digits_val 0 r1 in
                   Some (m, (if neg then - x else x) - fd)
              else None
          end
        else None
    end%Z.

(** The integer nearest to [a / b], ties to the even one. *)
Definition round_div (a b : Z) : Z :=
  (let q := a / b in
   let r := a mod b in
   if 2 * r <? b then q
   else if b <? 2 * r then q + 1
   else if Z.even q then q else q + 1)%Z.

(** [a / (b * 2^x)] as a fraction. *)
Definition scaled (a b x : Z) : Z * Z :=
  (if 0 <=? x then (a, b * 2 ^ x) else (a * 2 ^ (- x), b))%Z.

(** The double nearest to the positive rational [a / b], ties to even: its
    significand [m] and exponent [x], the value being [m * 2^x] with
    [2^52 <= m < 2^53], or [m < 2^52] and [x = -1074]; [None] when [a / b]
    rounds to infinity. *)
Definition to_double (a b : Z) : option (Z * Z) :=
  (let x1 := Z.log2 a - Z.log2 b - 52 in
   let '(n1, d1) := scaled a b x1 in
   let x2 := if 2 ^ 52 * d1 <=? n1 then x1 else x1 - 1 in
   let x := Z.max x2 (-1074) in
   let '(n, d) := scaled a b x in
   let m := round_div n d in
   let '(m', x') := if m =? 2 ^ 53 then (2 ^ 52, x + 1) else (m, x) in
   if 971 <? x' then None else Some (m', x'))%Z.

(** [m * 10^e] as a fraction. *)
Definition decimal (m e : Z) : Z * Z :=
  (if 0 <=? e then (m * 10 ^ e, 1) else (m, 10 ^ (- e)))%Z.

Fixpoint digits_count (fuel : nat) (z : Z) : Z :=
  match fuel with
  | O => 1%Z
  | S f => (if z <? 10 then 1 else 1 + digits_count f (z / 10))%Z
  end.

(** The number of decimal digits of a positive integer. *)
Definition decimal_length (z : Z) : Z :=
  digits_count (S (Z.to_nat (Z.log2 z))) z.

(** The double a decimal [m * 10^e] with [0 < m] denotes.  A value of
    more than 400 digits is beyond the largest double, one below
    [10^-400] rounds to zero. *)
Definition decimal_to_double (m e : Z) : option (Z * Z) :=
  let l := decimal_length m in
  if (400 <? l + e)%Z then None
  else if (l + e <? - 400)%Z then Some (0%Z, (-1074)%Z)
  else let '(a, b) := decimal m e in to_double a b.

Fixpoint lead (fuel : nat) (a b j : Z) : Z :=
  match fuel with
  | O => j
  | S f => if (b <=? a * 10 ^ j)%Z then j else lead f a b (j + 1)%Z
  end.

(** The [n] with [10^(n-1) <= a / b < 10^n], for a positive double
    [a / b]. *)
Definition magnitude (a b : Z) : Z :=
  if (b <=? a)%Z then decimal_length (a / b) else (1 - lead 400 a b 1)%Z.

(** The decimal [s * 10^(n-k)] denotes the double [d]. *)
Definition denotes (d : Z * Z) (s n k : Z) : bool :=
  let '(a, b) := decimal s (n - k) in
  match to_double a b with
  | Some d' => ((d'.1 =? d.1) && (d'.2 =? d.2))%Z
  | None => false
  end.

(** The shortest decimal that denotes the positive double [a / b]: the
    least [k] with a [k]-digit [s] such that [s * 10^(n-k)] denotes it,
    and of two such [s] the one nearer to the double.  Seventeen digits
    always do. *)
Fixpoint shortest_from (fuel : nat) (d : Z * Z) (a b n k : Z) : Z * Z :=
  match fuel with
  | O => (0%Z, k)
  | S f =>
      let '(tn, td) := (if 0 <=? n - k then (a, b * 10 ^ (n - k))
                        else (a * 10 ^ (k - n), b))%Z in
      let lo := (tn / td)%Z in
      let r := (tn mod td)%Z in
      let hi := (lo + 1)%Z in
      let lo_ok := denotes d lo n k in
      let hi_ok := denotes d hi n k in
      if lo_ok && hi_ok then
        if (2 * r <? td)%Z then (lo, k)
        else if (td <? 2 * r)%Z then (hi, k)
        else if Z.even lo then (lo, k) else (hi, k)
      else if lo_ok then (lo, k)
      else if hi_ok then (hi, k)
      else shortest_from f d a b n (k + 1)%Z
  end.

Fixpoint Z_digits (fuel : nat) (z : Z) (acc : list ascii) : list ascii :=
  match fuel with
  | O => acc
  | S f =>
      let a := ascii_of_N (48 + Z.to_N (z mod 10)) in
      if (z <? 10)%Z then a :: acc else Z_digits f (z / 10) (a :: acc)
  end.

(** The decimal digits of a natural number. *)
Definition Z_text (z : Z) : list ascii :=
  Z_digits (S (Z.to_nat (Z.log2 z))) z [].

Fixpoint strip_zeros (rev_digits : list ascii) : list ascii :=
  match rev_digits with
  | a :: r => if (ord a =? 48)%N then strip_zeros r else rev_digits
  | [] => []
  end.

(** The digits of the shortest decimal of the positive double [m * 2^x]
    and the position [n] of its decimal point: the value is
    [0.digits * 10^n]. *)
Definition shortest (m x : Z) : list ascii * Z :=
  let '(a, b) := (if 0 <=? x then (m * 2 ^ x, 1) else (m, 2 ^ (- x)))%Z in
  let n := magnitude a b in
  let '(s, k) := shortest_from 17 (m, x) a b n 1 in
  let ds := Z_text s in
  (rev (strip_zeros (rev ds)), (n + (Z.of_nat (length ds) - k))%Z).

Definition zeros (n : Z) : list ascii := replicate (Z.to_nat n) "0"%char.

(** [Number::toString] on the digits and the position of the point. *)
Definition render (ds : list ascii) (n : Z) : list ascii :=
  let k := Z.of_nat (length ds) in
  if ((k <=? n) && (n <=? 21))%Z then ds ++ zeros (n - k)
  else if ((0 <? n) && (n <=? 21))%Z then
    take (Z.to_nat n) ds ++ "."%char :: drop (Z.to_nat n) ds
  else if ((-6 <? n) && (n <=? 0))%Z then
    "0"%char :: "."%char :: zeros (- n) ++ ds
  else
    let x := (n - 1)%Z in
    let exponent := "e"%char :: (if (0 <=? x)%Z then "+"%char else "-"%char)
                    :: Z_text (Z.abs x) in
    match ds with
    | [d] => d :: exponent
    | d :: r => d :: "."%char :: r ++ exponent
    | [] => exponent
    end.

(** [JSON.stringify] of the number a literal denotes: the shortest decimal
    that reads back as the same double, [0] for either zero, and [null]
    when the double is not finite.  Text that is no literal stands as it
    is. *)
Definition number_text (lit : string) : string :=
  let '(neg, u) :=
    match list_ascii_of_string lit with
    | a :: r => if (ord a =? 45)%N then (true, r) else (false, a :: r)
    | [] => (false, [])
    end in
  match dec_literal u with
  | Some (m, e) =>
      if (m =? 0)%Z then "0"
      else
        match decimal_to_double m e with
        | None => "null"
        | Some (M, X) =>
            if (M =? 0)%Z then "0"
            else
              let '(ds, n) := shortest M X in
              string_of_list_ascii ((if neg then ["-"%char] else []) ++ render ds n)
        end
  | None => lit
  end.

(** ** [JSON.stringify] *)

Definition chars (s : string) : list ascii := list_ascii_of_string s.

Fixpoint quote_chars (s : list ascii) : list ascii :=
  match s with
  | [] => []
  | a :: r =>
      let c := ord a in
      if (c =? 34)%N then chars "\" ++ a :: quote_chars r
      else if (c =? 92)%N then a :: a :: quote_chars r
      else if (c =? 8)%N then chars "\b" ++ quote_chars r
      else if (c =? 12)%N then chars "\f" ++ quote_chars r
      else if (c =? 10)%N then chars "\n" ++ quote_chars r
      else if (c =? 13)%N then chars "\r" ++ quote_chars r
      else if (c =? 9)%N then chars "\t" ++ quote_chars r
      else if (c <? 32)%N then
        chars "\u00" ++ hex_digit (c / 16) :: hex_digit (c mod 16) :: quote_chars r
      else
        match r with
        | b :: d :: r' =>
            if (c =? 237)%N && (160 <=? ord b)%N && (ord b <=? 191)%N
               && (128 <=? ord d)%N && (ord d <=? 191)%N
            then (* a lone surrogate is written as an escape *)
              let n := (53248 + (ord b - 128) * 64 + (ord d - 128))%N in
              chars "\u" ++ hex_digit (n / 4096) :: hex_digit ((n / 256) mod 16)
                :: hex_digit ((n / 16) mod 16) :: hex_digit (n mod 16) :: quote_chars r'
            else a :: quote_chars r
        | _ => a :: quote_chars r
        end
  end.

Definition quote (s : string) : string :=
  String (ascii_of_N 34) (string_of_list_ascii (quote_chars (chars s)))
  +:+ String (ascii_of_N 34) "".

Fixpoint join (sep : string) (l : list string) : string :=
  match l with
  | [] => ""
  | [x] => x
  | x :: r => x +:+ sep +:+ join sep r
  end.

Fixpoint JSON_stringify (v : json) : string :=
  match v with
  | JNull => "null"
  | JBool true => "true"
  | JBool false => "false"
  | JNum lit => number_text lit
  | JStr s => quote s
  | JArr l => "[" +:+ join "," (map JSON_stringify l) +:+ "]"
  | JObj o =>
      "{" +:+ join "," (map (λ kv, quote kv.1 +:+ ":" +:+ JSON_stringify kv.2) o) +:+ "}"
  end.

(** ** Conversions used by the module's tests

    [if (v)] converts [v] to a boolean; [v.length > 0] reads a property and
    compares it with a number. *)

(** The double nearest to [m * 10^e] is zero: the value is at most half the
    smallest positive double, 2^-1075. *)
Definition rounds_to_zero (m e : Z) : bool :=
  ((m =? 0) || ((e <? 0) && (m * 2 ^ 1075 <=? 10 ^ (- e))))%Z.

(** White space for the conversion of a string to a number, in UTF-8:
    the white space and line terminator characters of the language. *)
Definition ws1 (a : N) : bool :=
  ((a =? 9) || (a =? 10) || (a =? 11) || (a =? 12) || (a =? 13) || (a =? 32))%N.
Definition ws2 (a b : N) : bool := ((a =? 194) && (b =? 160))%N.
Definition ws3 (a b c : N) : bool :=
  (((a =? 225) && (b =? 154) && (c =? 128))
   || ((a =? 226) && (b =? 128)
       && (((128 <=? c) && (c <=? 138)) || (c =? 168) || (c =? 169) || (c =? 175)))
   || ((a =? 226) && (b =? 129) && (c =? 159))
   || ((a =? 227) && (b =? 128) && (c =? 128))
   || ((a =? 239) && (b =? 187) && (c =? 191)))%N.

Fixpoint trim_start (s : list ascii) : list ascii :=
  match s with
  | a :: r =>
      if ws1 (ord a) then trim_start r
      else match r with
           | b :: r1 =>
               if ws2 (ord a) (ord b) then trim_start r1
               else match r1 with
                    | c :: r2 => if ws3 (ord a) (ord b) (ord c) then trim_start r2 else s
                    | [] => s
                    end
           | [] => s
           end
  | [] => []
  end.

(** The same on the reversed text, to trim the end. *)
Fixpoint trim_start_rev (s : list ascii) : list ascii :=
  match s with
  | a :: r =>
      if ws1 (ord a) then trim_start_rev r
      else match r with
           | b :: r1 =>
               if ws2 (ord b) (ord a) then trim_start_rev r1
               else match r1 with
                    | c :: r2 => if ws3 (ord c) (ord b) (ord a) then trim_start_rev r2 else s
                    | [] => s
                    end
           | [] => s
           end
  | [] => []
  end.

Definition trim (s : list ascii) : list ascii :=
  rev (trim_start_rev (rev (trim_start s))).

Fixpoint all_below (base : N) (s : list ascii) : bool :=
  match s with
  | [] => true
  | a :: r => match hex_val a with
              | Some d => (d <? base)%N && all_below base r
              | None => false
              end
  end.

Fixpoint some_nonzero (s : list ascii) : bool :=
  match s with
  | [] => false
  | a :: r => negb (ord a =? 48)%N || some_nonzero r
  end.

(** [0x...], [0o...], [0b...]: positive when well formed with a digit that
    is not zero. *)
Definition nondecimal_positive (s : list ascii) : bool :=
  match s with
  | z :: p :: d :: ds =>
      if (ord z =? 48)%N then
        let c := ord p in
        let base := if (c =? 120)%N || (c =? 88)%N then Some 16%N
                    else if (c =? 111)%N || (c =? 79)%N then Some 8%N
                    else if (c =? 98)%N || (c =? 66)%N then Some 2%N
                    else None in
        match base with
        | Some b => all_below b (d :: ds) && some_nonzero (d :: ds)
        | None => false
        end
      else false
  | _ => false
  end.

(** [ToNumber(s) > 0] for a string [s]. *)
Definition string_positive (s : string) : bool :=
  match trim (chars s) with
  | [] => false
  | a :: r =>
      if (ord a =? 45)%N then false
      else
        let signed := (ord a =? 43)%N in
        let u := if signed then r else a :: r in
        if decide (u = chars "Infinity") then true
        else match dec_literal u with
             | Some (m, e) => negb (rounds_to_zero m e)
             | None => negb signed && nondecimal_positive u
             end
  end.

(** The number a literal of the JSON grammar denotes is zero. *)
Definition number_is_zero (lit : string) : bool :=
  let u := match chars lit with
           | a :: r => if (ord a =? 45)%N then r else a :: r
           | [] => []
           end in
  match dec_literal u with
  | Some (m, e) => rounds_to_zero m e
  | None => false
  end.

(** [ToBoolean]. *)
Definition truthy (v : json) : bool :=
  match v with
  | JNull => false
  | JBool b => b
  | JNum lit => negb (number_is_zero lit)
  | JStr s => negb (String.eqb s "")
  | JArr _ | JObj _ => true
  end.

(** [ToString], as far as a later conversion to a number can tell: a number
    stands as its literal, which converts back to the same number.  An
    array joins its elements with commas, [null] counting as empty; an
    object is [[object Object]] unless an own property hides [toString]
    with something that cannot be called. *)
Fixpoint to_text (v : json) : completion string :=
  match v with
  | JNull => Normal "null"
  | JBool b => Normal (if b then "true" else "false")
  | JNum lit => Normal lit
  | JStr s => Normal s
  | JArr l =>
      (fix join_items (l : list json) : completion string :=
         match l with
         | [] => Normal ""
         | x :: r =>
             let elt := match x with JNull => Normal "" | _ => to_text x end in
             match r with
             | [] => elt
             | _ :: _ => s ← elt; t ← join_items r; Normal (s +:+ "," +:+ t)
             end
         end) l
  | JObj o => if obj_has "toString" o then Throw TypeError
              else Normal "[object Object]"
  end.

(** [v > 0]. *)
Definition gt_zero (v : json) : completion bool :=
  match v with
  | JNull => Normal false
  | JBool b => Normal b
  | JNum lit => Normal (string_positive lit)
  | JStr s => Normal (string_positive s)
  | JArr _ | JObj _ => s ← to_text v; Normal (string_positive s)
  end.

(** [v.length > 0]: an array and a string have a length; [null] has no
    properties at all; a boolean and a number have no [length]; an object
    has the one it may carry as an own property. *)
Definition length_gt_0 (v : json) : completion bool :=
  match v with
  | JNull => Throw TypeError
  | JBool _ | JNum _ => Normal false
  | JStr s => Normal (negb (String.eqb s ""))
  | JArr l => Normal (0 <? length l)
  | JObj o => match obj_get "length" o with
              | Some x => gt_zero x
              | None => Normal false
              end
  end.

End Json.

Import Json.

(* ===================================================================== *)
(** * The Supabase service: tables of the migrations behind the REST layer *)
(* ===================================================================== *)

(** The error object of a failed request ([code] is the stable
    discriminator, [message] the text shown to the user). *)
Record PostgrestError : Type := { code : string; message : string }.

(** The result of a query ending in [.single()]. *)
Record SingleResponse : Type := {
  data : option object;
  error : option PostgrestError
}.

Record User : Type := { id : string }.

Module Postgrest.

(** [public.user_settings] (create_user_settings_table.sql).  A [jsonb]
    column holds a JSON value; SQL NULL reads back as [null]. *)
Record settings_row : Type := {
  user_id : string;
  folders : json;
  action_buttons : json;
  trainings : json;
  statistics : json;
  charts : json;
  updated_at : option string
}.

(** [public.profiles] (create_profiles_table.sql). *)
Record profile_row : Type := {
  profile_id : string;
  username : option string;
  created_at : option string
}.

Record database : Type := {
  user_settings : list settings_row;
  profiles : list profile_row
}.

Definition settings_columns : list string :=
  ["user_id"; "folders"; "action_buttons"; "trainings"; "statistics"; "charts";
   "updated_at"].

Definition text_or_null (s : option string) : json :=
  match s with Some t => JStr t | None => JNull end.

(** A row as the REST layer returns it for [select('*')]. *)
Definition settings_object (r : settings_row) : object :=
  [("user_id", JStr (user_id r)); ("folders", folders r);
   ("action_buttons", action_buttons r); ("trainings", trainings r);
   ("statistics", statistics r); ("charts", charts r);
   ("updated_at", text_or_null (updated_at r))].

Definition profile_object (r : profile_row) : object :=
  [("id", JStr (profile_id r)); ("username", text_or_null (username r));
   ("created_at", text_or_null (created_at r))].

Definition err (c m : string) : PostgrestError := {| code := c; message := m |}.

(** [.single()]: exactly one row, or the error PGRST116. *)
Definition single (rows : list object) : SingleResponse :=
  match rows with
  | [r] => {| data := Some r; error := None |}
  | _ => {| data := None;
            error := Some (err "PGRST116"
                     "JSON object requested, multiple (or no) rows returned") |}
  end.

(** The policies of both tables let an authenticated caller see only the
    row keyed by the caller's own id. *)
Definition visible_settings (caller : option User) (db : database) : list settings_row :=
  match caller with
  | Some u => filter (λ r, user_id r = id u) (user_settings db)
  | None => []
  end.

Definition visible_profiles (caller : option User) (db : database) : list profile_row :=
  match caller with
  | Some u => filter (λ r, profile_id r = id u) (profiles db)
  | None => []
  end.

Definition eq_filter (column value : string) (rows : list object) : list object :=
  List.filter (λ o, match obj_get column o with
                    | Some (JStr s) => String.eqb s value
                    | _ => false
                    end) rows.

(** [from(table).select('*').eq(column, value).single()] *)
Definition select_eq_single (caller : option User) (db : database)
    (table column value : string) : SingleResponse :=
  if String.eqb table "user_settings" then
    if bool_decide (column ∈ settings_columns)
    then single (eq_filter column value (settings_object <$> visible_settings caller db))
    else {| data := None; error := Some (err "42703" "column does not exist") |}
  else if String.eqb table "profiles" then
    if bool_decide (column ∈ ["id"; "username"; "created_at"])
    then single (eq_filter column value (profile_object <$> visible_profiles caller db))
    else {| data := None; error := Some (err "42703" "column does not exist") |}
  else {| data := None; error := Some (err "42P01" "relation does not exist") |}.

(** Columns of [user_settings] named by a payload, and the first key of the
    payload that names no column. *)
Definition unknown_key (payload : object) : option string :=
  head (filter (λ k, k ∉ settings_columns) (payload.*1)).

(** The value a column takes from a payload, if the payload names it. *)
Definition provided (column : string) (payload : object) : option json :=
  obj_get column payload.

Definition json_default (v : option json) (d : json) : json :=
  match v with Some x => x | None => d end.

(** [INSERT]: a column the payload does not name takes its DEFAULT
    ([[]] for the documents, [now()] for the timestamp). *)
Definition inserted_row (uid : string) (payload : object) (now : string)
    (stamp : option string) : settings_row :=
  {| user_id := uid;
     folders := json_default (provided "folders" payload) (JArr []);
     action_buttons := json_default (provided "action_buttons" payload) (JArr []);
     trainings := json_default (provided "trainings" payload) (JArr []);
     statistics := json_default (provided "statistics" payload) (JArr []);
     charts := json_default (provided "charts" payload) (JArr []);
     updated_at := match provided "updated_at" payload with
                   | Some _ => stamp
                   | None => Some now
                   end |}.

(** [ON CONFLICT (user_id) DO UPDATE]: the columns the payload names are
    set, the others keep their value, and the trigger
    [on_user_settings_update] stamps [updated_at] with [now()]. *)
Definition updated_row (old : settings_row) (payload : object) (now : string) : settings_row :=
  {| user_id := user_id old;
     folders := json_default (provided "folders" payload) (folders old);
     action_buttons := json_default (provided "action_buttons" payload) (action_buttons old);
     trainings := json_default (provided "trainings" payload) (trainings old);
     statistics := json_default (provided "statistics" payload) (statistics old);
     charts := json_default (provided "charts" payload) (charts old);
     updated_at := Some now |}.

Fixpoint replace_row (uid : string) (payload : object) (now : string)
    (rows : list settings_row) : list settings_row :=
  match rows with
  | [] => []
  | r :: rest =>
      if String.eqb (user_id r) uid then updated_row r payload now :: rest
      else r :: replace_row uid payload now rest
  end.

Definition has_row (uid : string) (rows : list settings_row) : bool :=
  existsb (λ r, String.eqb (user_id r) uid) rows.

(** The write itself, once the payload is accepted: the conflict target
    must be the primary key, the key must be given, the policies require it
    to be the caller's own id, and the timestamp must be text or null.
    Two idealisations: any text is taken for the time, where the column
    parses it and refuses what is no time; and a document is kept as it
    is given, where a [jsonb] column orders the keys of objects, keeps
    the last of equal keys and writes numbers as [numeric] does.  What is
    proved of an accepted write and of the documents read back is stated
    for payloads on which neither makes a difference. *)
Definition write_settings (caller : option User) (now : string)
    (db : database) (payload : object) (onConflict : string)
    : option PostgrestError * database :=
  if negb (String.eqb onConflict "user_id") then
    (Some (err "42P10" "no unique constraint matching the ON CONFLICT specification"), db)
  else
    match provided "user_id" payload with
    | Some (JStr uid) =>
        match caller with
        | Some u =>
            if String.eqb (id u) uid then
              let stamp := match provided "updated_at" payload with
                           | Some (JStr t) => Some (Some t)
                           | Some JNull => Some None
                           | None => Some None
                           | Some _ => None
                           end in
              match stamp with
              | Some t =>
                  let rows := user_settings db in
                  (None,
                   {| user_settings :=
                        if has_row uid rows then replace_row uid payload now rows
                        else rows ++ [inserted_row uid payload now t];
                      profiles := profiles db |})
              | None => (Some (err "22007" "invalid input syntax for type timestamp"), db)
              end
            else (Some (err "42501" "new row violates row-level security policy"), db)
        | None => (Some (err "42501" "new row violates row-level security policy"), db)
        end
    | Some JNull | None =>
        (Some (err "23502" "null value in column user_id violates not-null constraint"), db)
    | Some _ => (Some (err "22P02" "invalid input syntax for type uuid"), db)
    end.

(** [from('user_settings').upsert(payload, { onConflict })] for a caller.
    [strict] is the REST layer's treatment of a payload key that names no
    column: rejected with PGRST204 (what PostgREST does), or dropped. *)
Definition upsert_settings (strict : bool) (caller : option User) (now : string)
    (db : database) (payload : object) (onConflict : string)
    : option PostgrestError * database :=
  match unknown_key payload with
  | Some k =>
      if strict then
        (Some (err "PGRST204"
           ("Could not find the '" +:+ k +:+ "' column of 'user_settings' in the schema cache")),
         db)
      else write_settings caller now db payload onConflict
  | None => write_settings caller now db payload onConflict
  end.

End Postgrest.

(* ===================================================================== *)
(** * The page: local storage, the service, what the user sees *)
(* ===================================================================== *)

(** Requests of the module to the service. *)
Inductive request : Type :=
| ReqSelect (table column value : string)
| ReqUpsert (table : string) (row : object) (onConflict : string).

(** What a run of the page cannot choose: who is signed in, which requests
    fail in transport, the two clocks, the REST layer's strictness. *)
Record env : Type := {
  auth_user : option User;
  fault : request → option PostgrestError;
  clock : string;
  server_clock : string;
  strict_columns : bool
}.

(** Everything the module does to the outside, in order. *)
Inductive event : Type :=
| GetItem (key : string)
| SetItem (key value : string)
| ConsoleLog (args : list string)
| ConsoleError (text : string) (err : PostgrestError)
| Alert (text : string)
| ReloadAfter (ms : Z)
| GetUser
| Select (table column value : string)
| Upsert (table : string) (row : object) (onConflict : string).

Record Session : Type := { session_user : User }.

(** The state of the [AuthProvider] component ([useState]). *)
Record AuthState : Type := {
  user : option User;
  session : option Session;
  profile : option object;
  loading : bool
}.

(** The state a run acts on.  [localStorage] maps keys to stored text;
    [events] is the history, oldest first. *)
Record world : Type := {
  localStorage : gmap string string;
  database : Postgrest.database;
  provider : AuthState;
  events : list event
}.

Definition emit (ev : event) (w : world) : world :=
  {| localStorage := localStorage w;
     database := database w;
     provider := provider w;
     events := events w ++ [ev] |}.

Definition set_provider (f : AuthState → AuthState) (w : world) : world :=
  {| localStorage := localStorage w;
     database := database w;
     provider := f (provider w);
     events := events w |}.

(** A computation on the page: it changes the world and completes normally
    or throws. *)
Definition M (A : Type) : Type := world → completion A * world.

#[global] Instance M_ret : MRet M := λ A a w, (Normal a, w).
#[global] Instance M_bind : MBind M := λ A B f m w,
  match m w with
  | (Normal a, w') => f a w'
  | (Throw e, w') => (Throw e, w')
  end.

Definition lift {A} (c : completion A) : M A := λ w, (c, w).

Section Page.

Variable E : env.

(** ** Browser built-ins *)

Definition localStorage_getItem (key : string) : M (option string) :=
  λ w, (Normal (localStorage w !! key), emit (GetItem key) w).

Definition localStorage_setItem (key value : string) : M unit :=
  λ w, (Normal tt,
        emit (SetItem key value)
          {| localStorage := <[key := value]> (localStorage w);
             database := database w;
             provider := provider w;
             events := events w |}).

Definition console_log (args : list string) : M unit :=
  λ w, (Normal tt, emit (ConsoleLog args) w).

Definition console_error (text : string) (e : PostgrestError) : M unit :=
  λ w, (Normal tt, emit (ConsoleError text e) w).

Definition alert (text : string) : M unit :=
  λ w, (Normal tt, emit (Alert text) w).

(** [setTimeout(() => window.location.reload(), ms)] *)
Definition setTimeout_reload (ms : Z) : M unit :=
  λ w, (Normal tt, emit (ReloadAfter ms) w).

(** [new Date().toISOString()] *)
Definition Date_toISOString : M string := λ w, (Normal (clock E), w).

(** [a || b] on the result of [getItem]: [null] and the empty string are
    the falsy ones. *)
Definition or_else (a : option string) (b : string) : string :=
  match a with
  | Some s => if String.eqb s "" then b else s
  | None => b
  end.

(** ** The Supabase client *)

(** [supabase.auth.getUser()], read at [data.user]. *)
Definition supabase_auth_getUser : M (option User) :=
  λ w, (Normal (auth_user E), emit GetUser w).

(** What a [select ... single()] resolves to in a given state of the
    service. *)
Definition select_response (db : Postgrest.database) (table column value : string)
    : SingleResponse :=
  match fault E (ReqSelect table column value) with
  | Some e => {| data := None; error := Some e |}
  | None => Postgrest.select_eq_single (auth_user E) db table column value
  end.

Definition supabase_select_single (table column value : string) : M SingleResponse :=
  λ w, (Normal (select_response (database w) table column value),
        emit (Select table column value) w).

(** What an [upsert] resolves to, and the state it leaves the service in. *)
Definition upsert_response (db : Postgrest.database) (table : string) (row : object)
    (onConflict : string) : option PostgrestError * Postgrest.database :=
  match fault E (ReqUpsert table row onConflict) with
  | Some e => (Some e, db)
  | None =>
      if String.eqb table "user_settings"
      then Postgrest.upsert_settings (strict_columns E) (auth_user E) (server_clock E)
             db row onConflict
      else (Some (Postgrest.err "42P01" "relation does not exist"), db)
  end.

Definition supabase_upsert (table : string) (row : object) (onConflict : string)
    : M (option PostgrestError) :=
  λ w, let '(e, db) := upsert_response (database w) table row onConflict in
       (Normal e,
        emit (Upsert table row onConflict)
          {| localStorage := localStorage w; database := db;
             provider := provider w; events := events w |}).

(* ===================================================================== *)
(** * src/lib/data-manager.ts *)
(* ===================================================================== *)

(** [interface AppData].  The fields are declared [any[]]; what they hold
    at run time is whatever [JSON.parse] returned. *)
Record AppData : Type := {
  folders : json;
  actionButtons : json;
  trainings : json;
  statistics : json;
  charts : json
}.

(** The own properties of an [AppData] object, in order. *)
Definition AppData_object (d : AppData) : object :=
  [("folders", folders d); ("actionButtons", actionButtons d);
   ("trainings", trainings d); ("statistics", statistics d);
   ("charts", charts d)].

Definition gatherDataFromLocalStorage : M AppData :=
  i ← localStorage_getItem "poker-ranges-folders";
  folders ← lift (JSON_parse (or_else i "[]"));
  i ← localStorage_getItem "poker-ranges-actions";
  actionButtons ← lift (JSON_parse (or_else i "[]"));
  i ← localStorage_getItem "training-sessions";
  trainings ← lift (JSON_parse (or_else i "[]"));
  i ← localStorage_getItem "training-statistics";
  statistics ← lift (JSON_parse (or_else i "[]"));
  i ← localStorage_getItem "userCharts";
  charts ← lift (JSON_parse (or_else i "[]"));
  mret {| folders := folders; actionButtons := actionButtons;
          trainings := trainings; statistics := statistics; charts := charts |}.

(** [if (data.k) localStorage.setItem(key, JSON.stringify(data.k))] *)
Definition apply_slot (data : object) (k key : string) : M unit :=
  match obj_get k data with
  | Some v => if truthy v then localStorage_setItem key (JSON_stringify v)
              else mret tt
  | None => mret tt
  end.

Definition applyDataToLocalStorage (data : object) : M unit :=
  apply_slot data "folders" "poker-ranges-folders";;
  apply_slot data "actionButtons" "poker-ranges-actions";;
  apply_slot data "trainings" "training-sessions";;
  apply_slot data "statistics" "training-statistics";;
  apply_slot data "charts" "userCharts";;
  alert "Настройки успешно синхронизированы! Приложение будет перезагружено.";;
  setTimeout_reload 250.

(** [{ user_id: userId, ...settingsData, updated_at: ... }] *)
Definition upsert_row (userId : string) (settingsData : AppData) (now : string) : object :=
  ("user_id", JStr userId) :: AppData_object settingsData ++ [("updated_at", JStr now)].

Definition exportUserSettings : M unit :=
  user ← supabase_auth_getUser;
  match user with
  | None =>
      alert "Для сохранения настроек в облако необходимо войти в аккаунт."
  | Some user =>
      console_log ["Uploading settings to Supabase for user:"; id user];;
      settingsData ← gatherDataFromLocalStorage;
      now ← Date_toISOString;
      error ← supabase_upsert "user_settings"
                (upsert_row (id user) settingsData now) "user_id";
      match error with
      | Some error =>
          console_error "Error uploading settings:" error;;
          alert ("Ошибка сохранения настроек: " +:+ message error)
      | None =>
          console_log ["Settings uploaded successfully."];;
          alert "Настройки успешно сохранены в облаке!"
      end
  end.

Definition uploadInitialSettings (userId : string) (settingsData : AppData) : M unit :=
  now ← Date_toISOString;
  error ← supabase_upsert "user_settings" (upsert_row userId settingsData now) "user_id";
  match error with
  | Some error =>
      console_error "Error on initial upload:" error;;
      alert ("Ошибка первоначальной синхронизации: " +:+ message error)
  | None =>
      alert "Ваши локальные настройки были успешно сохранены в облаке!"
  end.

(** [Object.values(localData)] *)
Definition Object_values (d : AppData) : list json := (AppData_object d).*2.

(** [Array.prototype.some]: stops at the first element the test accepts. *)
Fixpoint some (test : json → completion bool) (l : list json) : completion bool :=
  match l with
  | [] => Normal false
  | x :: r => b ← test x; if b : bool then Normal true else some test r
  end.

(** [error && error.code !== 'PGRST116']: the error, when the test holds. *)
Definition failure (error : option PostgrestError) : option PostgrestError :=
  match error with
  | Some e => if String.eqb (code e) "PGRST116" then None else Some e
  | None => None
  end.

Definition importUserSettings : M unit :=
  user ← supabase_auth_getUser;
  match user with
  | None => console_log ["User not logged in, cannot import settings."]
  | Some user =>
      console_log ["Importing settings from Supabase for user:"; id user];;
      r ← supabase_select_single "user_settings" "user_id" (id user);
      match failure (error r) with
      | Some error =>
          console_error "Error importing settings:" error;;
          alert ("Ошибка загрузки настроек: " +:+ message error)
      | None =>
          match data r with
          | Some data =>
              console_log ["Settings found in Supabase, applying to local storage."];;
              let settingsData := obj_rest ["user_id"; "updated_at"] data in
              applyDataToLocalStorage settingsData
          | None =>
              console_log ["No settings found in Supabase for this user. Checking for local data to perform initial sync."];;
              localData ← gatherDataFromLocalStorage;
              hasLocalData ← lift (some length_gt_0 (Object_values localData));
              if hasLocalData : bool then
                console_log ["Local data found. Performing initial upload."];;
                uploadInitialSettings (id user) localData
              else
                console_log ["No remote or local settings found. Fresh start."]
          end
      end
  end.

(* ===================================================================== *)
(** * AuthProvider: the [onAuthStateChange] callback *)
(* ===================================================================== *)

Definition setSession (s : option Session) : M unit :=
  λ w, (Normal tt, set_provider (λ a, {| user := user a; session := s;
                                         profile := profile a; loading := loading a |}) w).
Definition setUser (u : option User) : M unit :=
  λ w, (Normal tt, set_provider (λ a, {| user := u; session := session a;
                                         profile := profile a; loading := loading a |}) w).
Definition setProfile (p : option object) : M unit :=
  λ w, (Normal tt, set_provider (λ a, {| user := user a; session := session a;
                                         profile := p; loading := loading a |}) w).
Definition setLoading (b : bool) : M unit :=
  λ w, (Normal tt, set_provider (λ a, {| user := user a; session := session a;
                                         profile := profile a; loading := b |}) w).

(** A call of an [async] function that is not awaited: what it does
    happens, what it throws rejects a promise nobody holds.  (Its steps
    after the first [await] run once the caller has returned; the caller
    here only sets [loading] afterwards.) *)
Definition detached (m : M unit) : M unit := λ w, (Normal tt, (m w).2).

Definition onAuthStateChange_callback (session : option Session) : M unit :=
  setSession session;;
  let currentUser := session_user <$> session in
  setUser currentUser;;
  match currentUser with
  | Some currentUser =>
      r ← supabase_select_single "profiles" "id" (id currentUser);
      match failure (error r) with
      | Some error =>
          console_error "Error fetching profile:" error;;
          setProfile None
      | None => setProfile (data r)
      end;;
      detached importUserSettings
  | None => setProfile None
  end;;
  setLoading false.

(** ** Reloads

    A full reload starts the page again: the component is mounted with its
    initial state, the effect subscribes, and the client delivers the stored
    session to the callback.  Local storage and the service live on. *)

Definition mount : M unit :=
  λ w, (Normal tt,
        set_provider (λ _, {| user := None; session := None; profile := None;
                              loading := true |}) w).

Definition page_load : M unit :=
  mount;;
  setLoading true;;
  onAuthStateChange_callback (Build_Session <$> auth_user E).

Definition is_reload (ev : event) : bool :=
  match ev with ReloadAfter _ => true | _ => false end.

(** The events a run added to the history. *)
Definition added (w w' : world) : list event := drop (length (events w)) (events w').

(** The number of reloads the first [n] page loads trigger, each load
    following the reload the one before it asked for. *)
Fixpoint reloads (n : nat) (w : world) : nat :=
  match n with
  | 0 => 0
  | S k =>
      let w' := (page_load w).2 in
      if existsb is_reload (added w w') then S (reloads k w') else 0
  end.

End Page.

(* ===================================================================== *)
(** * Vocabulary of the properties *)
(* ===================================================================== *)

(** The world with more history. *)
Definition log (evs : list event) (w : world) : world :=
  {| localStorage := localStorage w;
     database := database w;
     provider := provider w;
     events := events w ++ evs |}.

Definition is_upsert (ev : event) : bool :=
  match ev with Upsert _ _ _ => true | _ => false end.
Definition is_select (ev : event) : bool :=
  match ev with Select _ _ _ => true | _ => false end.
Definition is_set_item (ev : event) : bool :=
  match ev with SetItem _ _ => true | _ => false end.
Definition is_get_item (ev : event) : bool :=
  match ev with GetItem _ => true | _ => false end.

Definition count (p : event → bool) (evs : list event) : nat :=
  length (List.filter p evs).

(** The text [gatherDataFromLocalStorage] hands to [JSON.parse] for a key. *)
Definition slot_text (store : gmap string string) (key : string) : string :=
  or_else (store !! key) "[]".

(** The writes of a history, applied to a store. *)
Definition replay (evs : list event) (store : gmap string string) : gmap string string :=
  foldl (λ st ev, match ev with SetItem k v => <[k := v]> st | _ => st end) store evs.

(** The world after the local writes of [evs] were made and logged. *)
Definition wrote (evs : list event) (w : world) : world :=
  {| localStorage := replay evs (localStorage w);
     database := database w;
     provider := provider w;
     events := events w ++ evs |}.

(** The five keys of the local bundle. *)
Definition slot_keys : list string :=
  ["poker-ranges-folders"; "poker-ranges-actions"; "training-sessions";
   "training-statistics"; "userCharts"].

(** A computation only adds events to the history, none of them
    satisfying [p]. *)
Definition appends {A} (p : event → bool) (m : M A) : Prop :=
  ∀ w, ∃ evs, events (m w).2 = events w ++ evs ∧ count p evs = 0.

(** The five reads of [gatherDataFromLocalStorage]. *)
Definition reads : list event :=
  [GetItem "poker-ranges-folders"; GetItem "poker-ranges-actions";
   GetItem "training-sessions"; GetItem "training-statistics";
   GetItem "userCharts"].

(** The store holds the bundle [d]: each of the five texts parses, to the
    slot of [d]. *)
Definition holds (store : gmap string string) (d : AppData) : Prop :=
  JSON_parse (slot_text store "poker-ranges-folders") = Normal (folders d)
  ∧ JSON_parse (slot_text store "poker-ranges-actions") = Normal (actionButtons d)
  ∧ JSON_parse (slot_text store "training-sessions") = Normal (trainings d)
  ∧ JSON_parse (slot_text store "training-statistics") = Normal (statistics d)
  ∧ JSON_parse (slot_text store "userCharts") = Normal (charts d).

(** A bundle whose five slots are sequences. *)
Definition sequences (f a t s c : list json) : AppData :=
  {| folders := JArr f; actionButtons := JArr a; trainings := JArr t;
     statistics := JArr s; charts := JArr c |}.

(** What [applyDataToLocalStorage] writes under a key for the property [k]
    of its argument, if anything. *)
Definition slot_write (data : object) (k key : string) : list event :=
  match obj_get k data with
  | Some v => if truthy v then [SetItem key (JSON_stringify v)] else []
  | None => []
  end.

Definition apply_events (data : object) : list event :=
  slot_write data "folders" "poker-ranges-folders"
  ++ slot_write data "actionButtons" "poker-ranges-actions"
  ++ slot_write data "trainings" "training-sessions"
  ++ slot_write data "statistics" "training-statistics"
  ++ slot_write data "charts" "userCharts"
  ++ [Alert "Настройки успешно синхронизированы! Приложение будет перезагружено.";
      ReloadAfter 250].

(** [Partial<AppData>]: each slot is a sequence or is absent. *)
Module Partial.

Record AppData : Type := {
  folders : option (list json);
  actionButtons : option (list json);
  trainings : option (list json);
  statistics : option (list json);
  charts : option (list json)
}.

Definition prop (k : string) (v : option (list json)) : object :=
  match v with Some l => [(k, JArr l)] | None => [] end.

Definition to_object (p : AppData) : object :=
  prop "folders" (folders p) ++ prop "actionButtons" (actionButtons p)
  ++ prop "trainings" (trainings p) ++ prop "statistics" (statistics p)
  ++ prop "charts" (charts p).

(** The slot a storage key belongs to. *)
Definition slot_of_key (p : AppData) (key : string) : option (list json) :=
  if String.eqb key "poker-ranges-folders" then folders p
  else if String.eqb key "poker-ranges-actions" then actionButtons p
  else if String.eqb key "training-sessions" then trainings p
  else if String.eqb key "training-statistics" then statistics p
  else if String.eqb key "userCharts" then charts p
  else None.

End Partial.

(** The three events every run of [importUserSettings] for a signed-in
    user starts with. *)
Definition fetching (u : User) : list event :=
  [GetUser;
   ConsoleLog ["Importing settings from Supabase for user:"; id u];
   Select "user_settings" "user_id" (id u)].

(** What [uploadInitialSettings] and [exportUserSettings] tell the user
    once the upsert has resolved. *)
Definition initial_report (error : option PostgrestError) : list event :=
  match error with
  | Some e => [ConsoleError "Error on initial upload:" e;
               Alert ("Ошибка первоначальной синхронизации: " +:+ message e)]
  | None => [Alert "Ваши локальные настройки были успешно сохранены в облаке!"]
  end.

Definition export_report (error : option PostgrestError) : list event :=
  match error with
  | Some e => [ConsoleError "Error uploading settings:" e;
               Alert ("Ошибка сохранения настроек: " +:+ message e)]
  | None => [ConsoleLog ["Settings uploaded successfully."];
             Alert "Настройки успешно сохранены в облаке!"]
  end.

(** The world after an upsert of [row] and the events [evs] around it. *)
Definition upserted (E : env) (row : object) (evs : list event) (w : world) : world :=
  {| localStorage := localStorage w;
     database := (upsert_response E (database w) "user_settings" row "user_id").2;
     provider := provider w;
     events := events w ++ evs |}.

(** ** A signed-in user, for the examples *)

Definition u1 : User := {| id := "u1" |}.

Definition online (strict : bool) : env :=
  {| auth_user := Some u1;
     fault := λ _, None;
     clock := "2024-05-01T10:00:00.000Z";
     server_clock := "2024-05-01 10:00:01+00";
     strict_columns := strict |}.

Definition no_rows : Postgrest.database :=
  {| Postgrest.user_settings := []; Postgrest.profiles := [] |}.

Definition start (store : gmap string string) (db : Postgrest.database) : world :=
  {| localStorage := store;
     database := db;
     provider := {| user := None; session := None; profile := None; loading := true |};
     events := [] |}.

(** The service holding one row, for [u1], whose [charts] has one record. *)
Definition u1_row : Postgrest.settings_row :=
  {| Postgrest.user_id := "u1";
     Postgrest.folders := JArr [];
     Postgrest.action_buttons := JArr [];
     Postgrest.trainings := JArr [];
     Postgrest.statistics := JArr [];
     Postgrest.charts := JArr [JObj [("id", JNum "9")]];
     Postgrest.updated_at := Some "2024-04-30 08:00:00+00" |}.

Definition one_row : Postgrest.database :=
  {| Postgrest.user_settings := [u1_row]; Postgrest.profiles := [] |}.

(** A store whose [folders] slot has one record, as the application leaves
    it, and one whose [actionButtons] slot has one. *)
Definition folders_store : gmap string string :=
  {[ "poker-ranges-folders" := JSON_stringify (JArr [JObj [("id", JNum "1")]]) ]}.

Definition actions_store : gmap string string :=
  {[ "poker-ranges-actions" := JSON_stringify (JArr [JObj [("id", JNum "2")]]) ]}.

(** A store whose [folders] slot holds text that is not JSON, next to a
    [charts] slot with one record; and one whose [folders] slot holds JSON
    that is not a sequence. *)
Definition broken_store : gmap string string :=
  {[ "poker-ranges-folders" := "{"; "userCharts" := "[1]" ]}.

Definition object_store : gmap string string :=
  {[ "poker-ranges-folders" := "{}" ]}.

(** A store whose [folders] slot holds [null], next to a [charts] slot with
    one record. *)
Definition null_folders_store : gmap string string :=
  {[ "poker-ranges-folders" := "null"; "userCharts" := "[1]" ]}.

(** The world after two saves by [u1] to a service without rows: the store
    holds the bundle with one folder for the first, the bundle with one
    action button for the second. *)
Definition with_store (store : gmap string string) (w : world) : world :=
  {| localStorage := store;
     database := database w;
     provider := provider w;
     events := events w |}.

Definition saved_twice (strict : bool) : world :=
  (exportUserSettings (online strict)
     (with_store actions_store
        (exportUserSettings (online strict) (start folders_store no_rows)).2)).2.

(** A fetched record carries a bundle: it has the five properties of the
    bundle, with the bundle's values. *)
Definition carries (R : object) (d : AppData) : Prop :=
  Forall (λ kv, obj_get kv.1 R = Some kv.2) (AppData_object d).

(** A service that cannot be reached. *)
Definition offline : env :=
  {| auth_user := Some u1;
     fault := λ _, Some {| code := ""; message := "TypeError: Failed to fetch" |};
     clock := "2024-05-01T10:00:00.000Z";
     server_clock := "2024-05-01 10:00:01+00";
     strict_columns := true |}.

(* ===================================================================== *)
(** * AuthProvider: [register] and the [profiles] table *)
(* ===================================================================== *)

Module Accounts.

(** [char_length]: the characters of a text in UTF-8 are its bytes that do
    not continue a character. *)
Definition char_length (s : string) : nat :=
  length (List.filter (λ a, negb ((128 <=? ord a) && (ord a <? 192))%N) (chars s)).

Definition has_profile (uid : string) (rows : list Postgrest.profile_row) : bool :=
  existsb (λ r, String.eqb (Postgrest.profile_id r) uid) rows.

Definition has_username (name : string) (rows : list Postgrest.profile_row) : bool :=
  existsb (λ r, match Postgrest.username r with
                | Some n => String.eqb n name
                | None => false
                end) rows.

(** [from('profiles').insert({ id, username })] for a caller
    (create_profiles_table.sql): the INSERT policy wants the caller's own
    id; the constraint [username_length] wants 3 to 50 characters; the
    primary key and the UNIQUE constraint refuse a taken id or name;
    [created_at] takes its default. *)
Definition insert_profile (caller : option User) (now : string)
    (db : Postgrest.database) (uid username : string)
    : option PostgrestError * Postgrest.database :=
  match caller with
  | Some c =>
      if negb (String.eqb (id c) uid) then
        (Some (Postgrest.err "42501" "new row violates row-level security policy"), db)
      else if negb ((3 <=? char_length username) && (char_length username <=? 50)) then
        (Some (Postgrest.err "23514" "new row violates check constraint username_length"), db)
      else if has_profile uid (Postgrest.profiles db) then
        (Some (Postgrest.err "23505" "duplicate key value violates unique constraint profiles_pkey"), db)
      else if has_username username (Postgrest.profiles db) then
        (Some (Postgrest.err "23505" "duplicate key value violates unique constraint profiles_username_key"), db)
      else
        (None,
         {| Postgrest.user_settings := Postgrest.user_settings db;
            Postgrest.profiles :=
              Postgrest.profiles db
              ++ [{| Postgrest.profile_id := uid;
                     Postgrest.username := Some username;
                     Postgrest.created_at := Some now |}] |})
  | None =>
      (Some (Postgrest.err "42501" "new row violates row-level security policy"), db)
  end.

(** The error object of the authentication API. *)
Record AuthError : Type := { auth_message : string }.

(** What [supabase.auth.signUp] resolves to: [data.user], [data.session]
    and [error]. *)
Record SignUpResponse : Type := {
  signup_user : option User;
  signup_session : option Session;
  signup_error : option AuthError
}.

(** What [register] cannot choose: the answer of the authentication API,
    a transport failure of the insert, the server's clock. *)
Record api : Type := {
  signUp : string → string → SignUpResponse;
  insert_fault : option PostgrestError;
  now : string
}.

(** The calls [register] makes. *)
Inductive call : Type :=
| SignUp (email password : string)
| InsertProfile (uid username : string)
| LogError (text : string) (e : PostgrestError).

(** The service and the client's session, with the calls made so far. *)
Record state : Type := {
  db : Postgrest.database;
  signed_in : option User;
  calls : list call
}.

Definition error_text (e : PostgrestError) : string := message e.

(** [{ success, message? }] *)
Record Result : Type := { success : bool; message : option string }.

(** The client keeps the session a successful sign-up returns. *)
Definition session_after (r : SignUpResponse) (before : option User) : option User :=
  match signup_error r, signup_session r with
  | None, Some s => Some (session_user s)
  | _, _ => before
  end.

Definition register (A : api) (email password username : string) (st : state)
    : Result * state :=
  let r := signUp A email password in
  let st1 := {| db := db st;
                signed_in := session_after r (signed_in st);
                calls := calls st ++ [SignUp email password] |} in
  match signup_error r with
  | Some signUpError =>
      ({| success := false; message := Some (auth_message signUpError) |}, st1)
  | None =>
      match signup_user r with
      | None =>
          ({| success := false;
              message := Some "Registration successful, but no user data returned." |},
           st1)
      | Some user =>
          let '(profileError, db') :=
            match insert_fault A with
            | Some e => (Some e, db st1)
            | None => insert_profile (signed_in st1) (now A) (db st1) (id user) username
            end in
          let st2 := {| db := db';
                        signed_in := signed_in st1;
                        calls := calls st1 ++ [InsertProfile (id user) username] |} in
          match profileError with
          | Some profileError =>
              ({| success := false;
                  message := Some ("User created, but failed to create profile: "
                                   +:+ error_text profileError) |},
               {| db := db st2;
                  signed_in := signed_in st2;
                  calls := calls st2 ++ [LogError "Error creating profile:" profileError] |})
          | None => ({| success := true; message := None |}, st2)
          end
      end
  end.

(** The invariant of [profiles]: one row per id, one row per name, names
    of 3 to 50 characters. *)
Definition profiles_ok (rows : list Postgrest.profile_row) : Prop :=
  NoDup (Postgrest.profile_id <$> rows)
  ∧ NoDup (omap Postgrest.username rows)
  ∧ Forall (λ r, ∀ n, Postgrest.username r = Some n →
                      3 ≤ char_length n ∧ char_length n ≤ 50) rows.

(** An authentication API that accepts every sign-up and signs the new
    user in, and one that accepts but waits for the e-mail to be confirmed
    (no session). *)
Definition accepting : api :=
  {| signUp := λ email _, {| signup_user := Some {| id := email |};
                             signup_session := Some {| session_user := {| id := email |} |};
                             signup_error := None |};
     insert_fault := None;
     now := "2024-05-01 10:00:01+00" |}.

Definition confirming : api :=
  {| signUp := λ email _, {| signup_user := Some {| id := email |};
                             signup_session := None;
                             signup_error := None |};
     insert_fault := None;
     now := "2024-05-01 10:00:01+00" |}.

Definition fresh : state := {| db := no_rows; signed_in := None; calls := [] |}.

End Accounts.

(** ** More vocabulary: the service *)






(** A second user and a service with a row for each. *)
Definition u2 : User := {| id := "u2" |}.

Definition u2_row : Postgrest.settings_row :=
  {| Postgrest.user_id := "u2";
     Postgrest.folders := JArr [JObj [("id", JNum "7")]];
     Postgrest.action_buttons := JArr [];
     Postgrest.trainings := JArr [];
     Postgrest.statistics := JArr [];
     Postgrest.charts := JArr [];
     Postgrest.updated_at := Some "2024-04-29 09:00:00+00" |}.

Definition two_rows : Postgrest.database :=
  {| Postgrest.user_settings := [u2_row; u1_row]; Postgrest.profiles := [] |}.

(** ** More vocabulary: what a computation leaves alone *)

(** A computation leaves a part [f] of the world as it found it, however
    it completes. *)
Definition preserves {A X} (f : world → X) (m : M A) : Prop :=
  ∀ w, f (m w).2 = f w.

(** The property of the argument that [applyDataToLocalStorage] writes
    under a storage key. *)
Definition slot_property (key : string) : option string :=
  if String.eqb key "poker-ranges-folders" then Some "folders"
  else if String.eqb key "poker-ranges-actions" then Some "actionButtons"
  else if String.eqb key "training-sessions" then Some "trainings"
  else if String.eqb key "training-statistics" then Some "statistics"
  else if String.eqb key "userCharts" then Some "charts"
  else None.

(** What a key holds after [applyDataToLocalStorage data], given what it
    held before. *)
Definition applied (data : object) (key : string) (old : option string) : option string :=
  match slot_property key with
  | Some k =>
      match obj_get k data with
      | Some v => if truthy v then Some (JSON_stringify v) else old
      | None => old
      end
  | None => old
  end.

(** A store whose [folders] slot holds [null]. *)
Definition null_store : gmap string string :=
  {[ "poker-ranges-folders" := "null" ]}.

(** A local write, a fetch or a reload. *)
Definition local_or_fetch (ev : event) : bool :=
  is_set_item ev || is_select ev || is_reload ev.
Definition is_get_user (ev : event) : bool :=
  match ev with GetUser => true | _ => false end.
Definition is_alert (ev : event) : bool :=
  match ev with Alert _ => true | _ => false end.

(** ** More vocabulary: values that survive serialisation *)



























(* ===================================================================== *)
(** * Properties *)
(* ===================================================================== *)

(** Unfolds the built-ins of the page down to changes of the world. *)
Ltac page :=
  unfold mbind, mret, M_bind, M_ret, lift, localStorage_getItem,
    localStorage_setItem, console_log, console_error, alert, setTimeout_reload,
    Date_toISOString, supabase_auth_getUser, supabase_select_single,
    supabase_upsert, setSession, setUser, setProfile, setLoading, mount,
    set_provider, emit, log;
  simpl.

(** Closes an equation between two worlds that differ in how their
    histories are bracketed. *)
Ltac history := simpl; repeat rewrite <- app_assoc; simpl; reflexivity.

Section Runs.

Variable E : env.

Lemma log_nil w : log [] w = w.
Proof. destruct w. unfold log. simpl. rewrite app_nil_r. reflexivity. Qed.

Lemma log_log a b w : log b (log a w) = log (a ++ b) w.
Proof. unfold log. simpl. rewrite app_assoc. reflexivity. Qed.

Lemma emit_log ev w : emit ev w = log [ev] w.
Proof. reflexivity. Qed.

Lemma added_log evs w : added w (log evs w) = evs.
Proof. unfold added, log. simpl. apply drop_app_length. Qed.

Lemma bind_normal {A B} (m : M A) (f : A → M B) w a w' :
  m w = (Normal a, w') → (m ≫= f) w = f a w'.
Proof. intros H. unfold mbind, M_bind. rewrite H. reflexivity. Qed.

Lemma bind_throw {A B} (m : M A) (f : A → M B) w e w' :
  m w = (Throw e, w') → (m ≫= f) w = (Throw e, w').
Proof. intros H. unfold mbind, M_bind. rewrite H. reflexivity. Qed.

(** A failed fetch is reported and nothing else happens. *)
Lemma importUserSettings_failure w u r e :
  auth_user E = Some u →
  select_response E (database w) "user_settings" "user_id" (id u) = r →
  failure (error r) = Some e →
  importUserSettings E w =
    (Normal tt,
     log [GetUser;
          ConsoleLog ["Importing settings from Supabase for user:"; id u];
          Select "user_settings" "user_id" (id u);
          ConsoleError "Error importing settings:" e;
          Alert ("Ошибка загрузки настроек: " +:+ message e)] w).
Proof.
  intros Hu Hr He.
  unfold importUserSettings. page.
  rewrite Hu. simpl. rewrite Hr, He. history.
Qed.

Lemma replay_app a b store : replay (a ++ b) store = replay b (replay a store).
Proof. unfold replay. apply foldl_app. Qed.

Lemma wrote_wrote a b w : wrote b (wrote a w) = wrote (a ++ b) w.
Proof. unfold wrote. simpl. rewrite replay_app, app_assoc. reflexivity. Qed.

Lemma wrote_log evs w :
  count is_set_item evs = 0 → wrote evs w = log evs w.
Proof.
  intros H. unfold wrote, log. f_equal.
  revert H. generalize (localStorage w). unfold count.
  induction evs as [|ev evs IH]; intros st H; [reflexivity|].
  destruct ev; simpl in *; try discriminate; apply IH; exact H.
Qed.

Lemma apply_slot_run data k key w :
  apply_slot data k key w = (Normal tt, wrote (slot_write data k key) w).
Proof.
  unfold apply_slot, slot_write, wrote.
  destruct (obj_get k data) as [v|]; [destruct (truthy v)|]; page;
    rewrite ?app_nil_r; destruct w; reflexivity.
Qed.

(** [applyDataToLocalStorage] makes the writes of [apply_events], in that
    order, and nothing else. *)
Lemma applyDataToLocalStorage_run data w :
  applyDataToLocalStorage data w = (Normal tt, wrote (apply_events data) w).
Proof.
  unfold applyDataToLocalStorage, apply_events.
  repeat (erewrite bind_normal; [|apply apply_slot_run]).
  rewrite !wrote_wrote. page. unfold wrote. simpl.
  rewrite !replay_app. simpl. f_equal. f_equal. history.
Qed.

Lemma gatherDataFromLocalStorage_run w d :
  holds (localStorage w) d →
  gatherDataFromLocalStorage w = (Normal d, log reads w).
Proof.
  intros (H1 & H2 & H3 & H4 & H5). unfold slot_text in *.
  unfold gatherDataFromLocalStorage. page.
  rewrite H1, H2, H3, H4, H5. destruct d. f_equal. f_equal. history.
Qed.

Lemma uploadInitialSettings_run userId d w :
  let row := upsert_row userId d (clock E) in
  uploadInitialSettings E userId d w =
    (Normal tt,
     upserted E row
       (Upsert "user_settings" row "user_id"
        :: initial_report (upsert_response E (database w) "user_settings" row "user_id").1) w).
Proof.
  unfold uploadInitialSettings, upserted, initial_report. page.
  destruct (upsert_response E (database w) _ _ _) as [[e|] db]; simpl;
    f_equal; f_equal; history.
Qed.

Lemma exportUserSettings_run w u d :
  auth_user E = Some u →
  holds (localStorage w) d →
  let row := upsert_row (id u) d (clock E) in
  exportUserSettings E w =
    (Normal tt,
     upserted E row
       ([GetUser; ConsoleLog ["Uploading settings to Supabase for user:"; id u]]
        ++ reads
        ++ Upsert "user_settings" row "user_id"
           :: export_report (upsert_response E (database w) "user_settings" row "user_id").1) w).
Proof.
  intros Hu Hd. unfold exportUserSettings.
  erewrite bind_normal; [|reflexivity]. rewrite Hu.
  erewrite bind_normal; [|reflexivity].
  erewrite bind_normal; [|apply gatherDataFromLocalStorage_run; exact Hd].
  unfold upserted, export_report. page.
  destruct (upsert_response E (database w) _ _ _) as [[e|] db]; simpl;
    f_equal; f_equal; history.
Qed.

Lemma importUserSettings_signed_out w :
  auth_user E = None →
  importUserSettings E w =
    (Normal tt, log [GetUser; ConsoleLog ["User not logged in, cannot import settings."]] w).
Proof.
  intros Hu. unfold importUserSettings. page. rewrite Hu. history.
Qed.

Lemma importUserSettings_found w u R e :
  auth_user E = Some u →
  select_response E (database w) "user_settings" "user_id" (id u)
    = {| data := Some R; error := e |} →
  failure e = None →
  importUserSettings E w =
    applyDataToLocalStorage (obj_rest ["user_id"; "updated_at"] R)
      (log (fetching u
            ++ [ConsoleLog ["Settings found in Supabase, applying to local storage."]]) w).
Proof.
  intros Hu Hr He. unfold importUserSettings.
  erewrite bind_normal; [|reflexivity]. rewrite Hu.
  erewrite bind_normal; [|reflexivity].
  erewrite bind_normal; [|reflexivity].
  simpl. rewrite Hr. simpl. rewrite He.
  erewrite bind_normal; [|reflexivity].
  f_equal. page. f_equal. history.
Qed.

(** With no record and no failure, the local bundle is read and tested. *)
Lemma importUserSettings_not_found w u r :
  auth_user E = Some u →
  select_response E (database w) "user_settings" "user_id" (id u) = r →
  failure (error r) = None →
  data r = None →
  importUserSettings E w =
    (localData ← gatherDataFromLocalStorage;
     hasLocalData ← lift (some length_gt_0 (Object_values localData));
     if hasLocalData : bool then
       console_log ["Local data found. Performing initial upload."];;
       uploadInitialSettings E (id u) localData
     else
       console_log ["No remote or local settings found. Fresh start."])
    (log (fetching u
          ++ [ConsoleLog ["No settings found in Supabase for this user. Checking for local data to perform initial sync."]]) w).
Proof.
  intros Hu Hr He Hd. unfold importUserSettings.
  erewrite bind_normal; [|reflexivity]. rewrite Hu.
  erewrite bind_normal; [|reflexivity].
  erewrite bind_normal; [|reflexivity].
  simpl. rewrite Hr. simpl. rewrite He, Hd.
  erewrite bind_normal; [|reflexivity].
  f_equal. page. f_equal. history.
Qed.

End Runs.

(** ** Counting events *)

Lemma count_app p a b : count p (a ++ b) = count p a + count p b.
Proof. unfold count. rewrite List.filter_app, length_app. reflexivity. Qed.

Lemma count_slot_write p data k key :
  p (SetItem key (JSON_stringify (JNull))) = false →
  (∀ v, p (SetItem key v) = p (SetItem key (JSON_stringify JNull))) →
  count p (slot_write data k key) = 0.
Proof.
  intros H0 H. unfold slot_write.
  destruct (obj_get k data) as [v|]; [destruct (truthy v)|]; try reflexivity.
  unfold count. simpl. rewrite H, H0. reflexivity.
Qed.

Lemma apply_events_reload data : count is_reload (apply_events data) = 1.
Proof.
  unfold apply_events. rewrite !count_app.
  rewrite !count_slot_write by (intros; reflexivity). reflexivity.
Qed.

Lemma apply_events_upsert data : count is_upsert (apply_events data) = 0.
Proof.
  unfold apply_events. rewrite !count_app.
  rewrite !count_slot_write by (intros; reflexivity). reflexivity.
Qed.

Lemma apply_events_get_item data : count is_get_item (apply_events data) = 0.
Proof.
  unfold apply_events. rewrite !count_app.
  rewrite !count_slot_write by (intros; reflexivity). reflexivity.
Qed.

Lemma apply_events_last data : last (apply_events data) = Some (ReloadAfter 250).
Proof.
  unfold apply_events. rewrite !app_assoc.
  match goal with |- last (?l ++ [?a; ?b]) = _ =>
    change (l ++ [a; b]) with (l ++ [a] ++ [b]); rewrite (app_assoc l [a] [b])
  end.
  apply last_snoc.
Qed.

(** The world after [importUserSettings] found a record. *)
Lemma importUserSettings_found_world E w u R :
  auth_user E = Some u →
  select_response E (database w) "user_settings" "user_id" (id u)
    = {| data := Some R; error := None |} →
  importUserSettings E w =
    (Normal tt,
     wrote (fetching u
            ++ [ConsoleLog ["Settings found in Supabase, applying to local storage."]]
            ++ apply_events (obj_rest ["user_id"; "updated_at"] R)) w).
Proof.
  intros Hu Hr.
  rewrite (importUserSettings_found E w u R None Hu Hr eq_refl).
  rewrite applyDataToLocalStorage_run.
  rewrite <- (wrote_log _ w) by reflexivity.
  rewrite wrote_wrote, <- app_assoc. reflexivity.
Qed.

Lemma added_wrote evs w : added w (wrote evs w) = evs.
Proof. unfold added, wrote. simpl. apply drop_app_length. Qed.

Lemma replay_slot_write data k key (store : gmap string string) key' :
  replay (slot_write data k key) store !! key' =
    if String.eqb key' key
    then match obj_get k data with
         | Some v => if truthy v then Some (JSON_stringify v) else store !! key'
         | None => store !! key'
         end
    else store !! key'.
Proof.
  unfold slot_write.
  destruct (obj_get k data) as [v|]; [destruct (truthy v)|]; simpl;
    try (destruct (String.eqb key' key); reflexivity).
  destruct (String.eqb_spec key' key) as [->|Hne].
  - apply lookup_insert_eq.
  - apply lookup_insert_ne. congruence.
Qed.

Lemma replay_apply_events data (store : gmap string string) key :
  replay (apply_events data) store !! key = applied data key (store !! key).
Proof.
  unfold apply_events. rewrite !replay_app. cbn [replay foldl].
  rewrite !replay_slot_write. unfold applied, slot_property.
  destruct (String.eqb_spec key "userCharts") as [->|?]; [reflexivity|].
  destruct (String.eqb_spec key "training-statistics") as [->|?]; [reflexivity|].
  destruct (String.eqb_spec key "training-sessions") as [->|?]; [reflexivity|].
  destruct (String.eqb_spec key "poker-ranges-actions") as [->|?]; [reflexivity|].
  destruct (String.eqb_spec key "poker-ranges-folders") as [->|?]; reflexivity.
Qed.

(** What the rest pattern leaves: none of the named properties, and every
    other property as it was. *)
Lemma obj_get_obj_rest k ks (o : object) :
  obj_get k (obj_rest ks o) = if decide (k ∈ ks) then None else obj_get k o.
Proof.
  unfold obj_rest, object in *. induction o as [|[k' v] o IH].
  - destruct (decide (k ∈ ks)); reflexivity.
  - rewrite filter_cons. cbn [fst]. destruct (decide (k' ∉ ks)) as [Hk|Hk].
    + cbn [obj_get]. rewrite IH.
      destruct (String.eqb_spec k k') as [->|Hne]; [|reflexivity].
      rewrite decide_False by exact Hk. reflexivity.
    + rewrite IH. cbn [obj_get].
      destruct (String.eqb_spec k k') as [->|Hne]; [|reflexivity].
      destruct (decide (k' ∈ ks)) as [Hin|Hin]; [reflexivity|contradiction].
Qed.

Lemma applied_obj_rest R key old :
  applied (obj_rest ["user_id"; "updated_at"] R) key old = applied R key old.
Proof.
  unfold applied, slot_property.
  repeat match goal with
         | |- context [String.eqb key ?k] => destruct (String.eqb key k)
         end;
    try reflexivity; rewrite obj_get_obj_rest; reflexivity.
Qed.

(** C3: when the fetch returns a record, [importUserSettings] calls
    [applyDataToLocalStorage] with that record minus [user_id] and
    [updated_at]: the argument has neither of the two properties and has
    every other property of the record with its value; for a row of
    [user_settings] it is the five document columns, in order.  Each local
    key is then left as [applyDataToLocalStorage] leaves it for the
    record's own property of that slot.  One reload is scheduled, as the
    last thing the run does, and no upsert is made (the service is left as
    it was). *)
Theorem importUserSettings_applies_record E w u R :
  auth_user E = Some u →
  select_response E (database w) "user_settings" "user_id" (id u)
    = {| data := Some R; error := None |} →
  let w' := (importUserSettings E w).2 in
  let settingsData := obj_rest ["user_id"; "updated_at"] R in
  importUserSettings E w =
    applyDataToLocalStorage settingsData
      (log (fetching u
            ++ [ConsoleLog ["Settings found in Supabase, applying to local storage."]]) w)
  ∧ obj_get "user_id" settingsData = None
  ∧ obj_get "updated_at" settingsData = None
  ∧ (∀ k, k ≠ "user_id" → k ≠ "updated_at" → obj_get k settingsData = obj_get k R)
  ∧ (∀ row, R = Postgrest.settings_object row →
            settingsData =
              [("folders", Postgrest.folders row);
               ("action_buttons", Postgrest.action_buttons row);
               ("trainings", Postgrest.trainings row);
               ("statistics", Postgrest.statistics row);
               ("charts", Postgrest.charts row)])
  ∧ (∀ key, localStorage w' !! key = applied R key (localStorage w !! key))
  ∧ count is_reload (added w w') = 1
  ∧ last (added w w') = Some (ReloadAfter 250)
  ∧ count is_upsert (added w w') = 0
  ∧ database w' = database w.
Proof.
  intros Hu Hr w' settingsData. split.
  { apply (importUserSettings_found E w u R None Hu Hr eq_refl). }
  split; [subst settingsData; rewrite obj_get_obj_rest; reflexivity|].
  split; [subst settingsData; rewrite obj_get_obj_rest; reflexivity|].
  split.
  { intros k H1 H2. subst settingsData. rewrite obj_get_obj_rest.
    rewrite decide_False; [reflexivity|].
    rewrite !elem_of_cons, elem_of_nil. tauto. }
  split; [intros row ->; reflexivity|].
  subst w' settingsData.
  rewrite (importUserSettings_found_world E w u R Hu Hr). cbn [snd].
  rewrite added_wrote.
  rewrite !count_app, apply_events_reload, apply_events_upsert.
  split.
  { intros key. cbn [wrote localStorage]. rewrite !replay_app.
    change (replay (fetching u) (localStorage w)) with (localStorage w).
    cbn [replay foldl]. rewrite replay_apply_events. apply applied_obj_rest. }
  repeat split.
  rewrite app_assoc, last_app, apply_events_last. reflexivity.
Qed.

Lemma importUserSettings_applies_record_witness :
  auth_user (online true) = Some u1
  ∧ select_response (online true) (database (start folders_store one_row))
      "user_settings" "user_id" (id u1)
    = {| data := Some (Postgrest.settings_object u1_row); error := None |}
  ∧ obj_get "user_id"
      (obj_rest ["user_id"; "updated_at"] (Postgrest.settings_object u1_row)) = None
  ∧ count is_reload
      (added (start folders_store one_row)
         (importUserSettings (online true) (start folders_store one_row)).2) = 1.
Proof.
  split; [reflexivity|]. split; [reflexivity|].
  pose proof (importUserSettings_applies_record (online true)
                (start folders_store one_row) u1 (Postgrest.settings_object u1_row)
                eq_refl eq_refl) as H.
  cbv zeta in H. destruct H as (_ & Hid & _ & _ & _ & _ & Hreload & _).
  split; [exact Hid|exact Hreload].
Defined.

(** C10: in the branch that applies the remote record, what
    [importUserSettings] does is the same whatever the local store held:
    from two worlds in which the fetch returns the same record, the two runs
    add the same events; these contain no read of the local store and no
    upsert; and each final store is the prior one with the writes of those
    events, which the record alone determines. *)
Theorem importUserSettings_record_ignores_local E w1 w2 u R :
  auth_user E = Some u →
  select_response E (database w1) "user_settings" "user_id" (id u)
    = {| data := Some R; error := None |} →
  select_response E (database w2) "user_settings" "user_id" (id u)
    = {| data := Some R; error := None |} →
  let w1' := (importUserSettings E w1).2 in
  let w2' := (importUserSettings E w2).2 in
  added w1 w1' = added w2 w2'
  ∧ added w1 w1' =
      fetching u
      ++ [ConsoleLog ["Settings found in Supabase, applying to local storage."]]
      ++ apply_events (obj_rest ["user_id"; "updated_at"] R)
  ∧ count is_get_item (added w1 w1') = 0
  ∧ count is_upsert (added w1 w1') = 0
  ∧ localStorage w1' = replay (added w1 w1') (localStorage w1)
  ∧ localStorage w2' = replay (added w2 w2') (localStorage w2)
  ∧ database w1' = database w1
  ∧ database w2' = database w2.
Proof.
  intros Hu H1 H2 w1' w2'. subst w1' w2'.
  rewrite (importUserSettings_found_world E w1 u R Hu H1).
  rewrite (importUserSettings_found_world E w2 u R Hu H2).
  cbn [snd]. rewrite !added_wrote.
  rewrite !count_app, apply_events_get_item, apply_events_upsert.
  repeat split.
Qed.

Lemma importUserSettings_record_ignores_local_witness :
  auth_user (online true) = Some u1
  ∧ added (start folders_store one_row)
      (importUserSettings (online true) (start folders_store one_row)).2
    = added (start actions_store one_row)
        (importUserSettings (online true) (start actions_store one_row)).2.
Proof.
  split; [reflexivity|].
  apply (importUserSettings_record_ignores_local (online true)
           (start folders_store one_row) (start actions_store one_row) u1
           (Postgrest.settings_object u1_row) eq_refl eq_refl eq_refl).
Defined.

(** C5: when the fetch fails with an error other than PGRST116,
    [importUserSettings] reports it (console and alert, with the error's
    message) and returns: these are the only events after the fetch, so no
    upsert is made and nothing is written locally; store and service are
    left as they were. *)
Theorem importUserSettings_fetch_error E w u r e :
  auth_user E = Some u →
  select_response E (database w) "user_settings" "user_id" (id u) = r →
  error r = Some e →
  code e ≠ "PGRST116" →
  let w' := (importUserSettings E w).2 in
  (importUserSettings E w).1 = Normal tt
  ∧ added w w' =
      fetching u
      ++ [ConsoleError "Error importing settings:" e;
          Alert ("Ошибка загрузки настроек: " +:+ message e)]
  ∧ count is_upsert (added w w') = 0
  ∧ count is_set_item (added w w') = 0
  ∧ localStorage w' = localStorage w
  ∧ database w' = database w.
Proof.
  intros Hu Hr He Hc w'. subst w'.
  assert (Hf : failure (error r) = Some e).
  { rewrite He. simpl. destruct (String.eqb_spec (code e) "PGRST116"); [contradiction|reflexivity]. }
  rewrite (importUserSettings_failure E w u r e Hu Hr Hf). cbn [fst snd].
  rewrite added_log. repeat split.
Qed.

Lemma importUserSettings_fetch_error_witness :
  auth_user offline = Some u1
  ∧ code {| code := ""; message := "TypeError: Failed to fetch" |} ≠ "PGRST116"
  ∧ count is_upsert
      (added (start folders_store no_rows)
         (importUserSettings offline (start folders_store no_rows)).2) = 0.
Proof.
  split; [reflexivity|]. split; [discriminate|].
  apply (importUserSettings_fetch_error offline (start folders_store no_rows) u1
           _ {| code := ""; message := "TypeError: Failed to fetch" |}
           eq_refl eq_refl eq_refl).
  discriminate.
Defined.

(** ** The branch without a remote record *)

Lemma importUserSettings_upload E w u r d :
  auth_user E = Some u →
  select_response E (database w) "user_settings" "user_id" (id u) = r →
  failure (error r) = None →
  data r = None →
  holds (localStorage w) d →
  some length_gt_0 (Object_values d) = Normal true →
  let row := upsert_row (id u) d (clock E) in
  importUserSettings E w =
    (Normal tt,
     upserted E row
       (fetching u
        ++ [ConsoleLog ["No settings found in Supabase for this user. Checking for local data to perform initial sync."]]
        ++ reads
        ++ [ConsoleLog ["Local data found. Performing initial upload."];
            Upsert "user_settings" row "user_id"]
        ++ initial_report (upsert_response E (database w) "user_settings" row "user_id").1) w).
Proof.
  intros Hu Hr He Hd Hs Hl row.
  rewrite (importUserSettings_not_found E w u r Hu Hr He Hd).
  erewrite bind_normal; [|apply gatherDataFromLocalStorage_run; exact Hs].
  cbv beta. rewrite Hl.
  erewrite bind_normal; [|reflexivity]. cbv beta iota.
  erewrite bind_normal; [|reflexivity].
  rewrite uploadInitialSettings_run. unfold upserted. simpl.
  f_equal. f_equal. history.
Qed.

Lemma importUserSettings_fresh E w u r d :
  auth_user E = Some u →
  select_response E (database w) "user_settings" "user_id" (id u) = r →
  failure (error r) = None →
  data r = None →
  holds (localStorage w) d →
  some length_gt_0 (Object_values d) = Normal false →
  importUserSettings E w =
    (Normal tt,
     log (fetching u
          ++ [ConsoleLog ["No settings found in Supabase for this user. Checking for local data to perform initial sync."]]
          ++ reads
          ++ [ConsoleLog ["No remote or local settings found. Fresh start."]]) w).
Proof.
  intros Hu Hr He Hd Hs Hl.
  rewrite (importUserSettings_not_found E w u r Hu Hr He Hd).
  erewrite bind_normal; [|apply gatherDataFromLocalStorage_run; exact Hs].
  cbv beta. rewrite Hl.
  erewrite bind_normal; [|reflexivity]. cbv beta iota.
  page. f_equal. f_equal. history.
Qed.

(** On five sequences, the test of [importUserSettings] is whether one of
    them has an element. *)
Lemma hasLocalData_sequences f a t s c :
  some length_gt_0 (Object_values (sequences f a t s c)) =
    Normal (bool_decide (f ≠ [] ∨ a ≠ [] ∨ t ≠ [] ∨ s ≠ [] ∨ c ≠ [])).
Proof.
  destruct f; [|reflexivity].
  destruct a; [|reflexivity].
  destruct t; [|reflexivity].
  destruct s; [|reflexivity].
  destruct c; reflexivity.
Qed.

Lemma not_found_failure e : code e = "PGRST116" → failure (Some e) = None.
Proof. intros H. simpl. rewrite H. reflexivity. Qed.

(** C4: when the fetch returns the not-found signal and the five local
    slots are sequences of which at least one has an element,
    [importUserSettings] makes exactly one upsert, of the row made of the
    user's id, the five slots as read, and the time; it writes nothing
    locally and leaves the store as it was. *)
Theorem importUserSettings_uploads_local E w u e f a t s c :
  auth_user E = Some u →
  select_response E (database w) "user_settings" "user_id" (id u)
    = {| data := None; error := Some e |} →
  code e = "PGRST116" →
  holds (localStorage w) (sequences f a t s c) →
  f ≠ [] ∨ a ≠ [] ∨ t ≠ [] ∨ s ≠ [] ∨ c ≠ [] →
  let w' := (importUserSettings E w).2 in
  (importUserSettings E w).1 = Normal tt
  ∧ List.filter is_upsert (added w w') =
      [Upsert "user_settings"
         [("user_id", JStr (id u)); ("folders", JArr f); ("actionButtons", JArr a);
          ("trainings", JArr t); ("statistics", JArr s); ("charts", JArr c);
          ("updated_at", JStr (clock E))]
         "user_id"]
  ∧ count is_set_item (added w w') = 0
  ∧ localStorage w' = localStorage w.
Proof.
  intros Hu Hr Hc Hs Hne w'. subst w'.
  rewrite (importUserSettings_upload E w u _ (sequences f a t s c) Hu Hr
             (not_found_failure e Hc) eq_refl Hs).
  2:{ rewrite hasLocalData_sequences, bool_decide_eq_true_2; [reflexivity|exact Hne]. }
  cbn [fst snd]. unfold added, upserted. cbn [events localStorage].
  rewrite drop_app_length.
  destruct (upsert_response E (database w) _ _ _) as [[err|] db]; repeat split.
Qed.

Lemma importUserSettings_uploads_local_witness :
  holds (localStorage (start folders_store no_rows))
    (sequences [JObj [("id", JNum "1")]] [] [] [] [])
  ∧ List.filter is_upsert
      (added (start folders_store no_rows)
         (importUserSettings (online true) (start folders_store no_rows)).2) =
      [Upsert "user_settings"
         [("user_id", JStr "u1"); ("folders", JArr [JObj [("id", JNum "1")]]);
          ("actionButtons", JArr []); ("trainings", JArr []);
          ("statistics", JArr []); ("charts", JArr []);
          ("updated_at", JStr "2024-05-01T10:00:00.000Z")]
         "user_id"].
Proof.
  assert (H : holds (localStorage (start folders_store no_rows))
                (sequences [JObj [("id", JNum "1")]] [] [] [] [])).
  { repeat split; vm_compute; reflexivity. }
  split; [exact H|].
  apply (importUserSettings_uploads_local (online true) (start folders_store no_rows)
           u1 (Postgrest.err "PGRST116" "JSON object requested, multiple (or no) rows returned")
           [JObj [("id", JNum "1")]] [] [] [] [] eq_refl eq_refl eq_refl H).
  left. discriminate.
Defined.

(** C4 as stated, for every local state, fails.  With the [charts] slot
    holding one record, so that a local slot is a non-empty sequence, and
    the fetch returning the not-found signal: when the text of the
    [folders] slot is not JSON the read throws a [SyntaxError], and when it
    is [null] the test for local data throws a [TypeError]; either way the
    run ends there and no upsert is made. *)
Lemma importUserSettings_unreadable_not_uploaded :
  auth_user (online true) = Some u1
  ∧ select_response (online true) no_rows "user_settings" "user_id" (id u1)
    = {| data := None;
         error := Some (Postgrest.err "PGRST116"
                          "JSON object requested, multiple (or no) rows returned") |}
  ∧ JSON_parse (slot_text broken_store "userCharts") = Normal (JArr [JNum "1"])
  ∧ (importUserSettings (online true) (start broken_store no_rows)).1 = Throw SyntaxError
  ∧ List.filter is_upsert
      (added (start broken_store no_rows)
         (importUserSettings (online true) (start broken_store no_rows)).2) = []
  ∧ JSON_parse (slot_text null_folders_store "userCharts") = Normal (JArr [JNum "1"])
  ∧ (importUserSettings (online true) (start null_folders_store no_rows)).1 = Throw TypeError
  ∧ List.filter is_upsert
      (added (start null_folders_store no_rows)
         (importUserSettings (online true) (start null_folders_store no_rows)).2) = [].
Proof. repeat split; vm_compute; reflexivity. Qed.

(** C6: [importUserSettings] writes nothing, locally or to the service,
    (1) when nobody is signed in, in which case it makes no request to the
    service at all, and (2) when the fetch returns the not-found signal and
    each of the five local slots is an empty sequence; store and service
    are left as they were. *)
Theorem importUserSettings_writes_nothing E w :
  auth_user E = None
  ∨ (∃ u e,
       auth_user E = Some u
       ∧ select_response E (database w) "user_settings" "user_id" (id u)
         = {| data := None; error := Some e |}
       ∧ code e = "PGRST116"
       ∧ holds (localStorage w) (sequences [] [] [] [] [])) →
  let w' := (importUserSettings E w).2 in
  (importUserSettings E w).1 = Normal tt
  ∧ count is_upsert (added w w') = 0
  ∧ count is_set_item (added w w') = 0
  ∧ localStorage w' = localStorage w
  ∧ database w' = database w
  ∧ (auth_user E = None → count is_select (added w w') = 0).
Proof.
  intros [Hu | (u & e & Hu & Hr & Hc & Hs)] w'; subst w'.
  - rewrite (importUserSettings_signed_out E w Hu). cbn [fst snd].
    rewrite added_log. repeat split.
  - rewrite (importUserSettings_fresh E w u _ (sequences [] [] [] [] []) Hu Hr
               (not_found_failure e Hc) eq_refl Hs eq_refl).
    cbn [fst snd]. rewrite added_log. repeat split.
    intros Hn. rewrite Hn in Hu. discriminate.
Qed.

Lemma importUserSettings_writes_nothing_witness :
  holds (localStorage (start ∅ no_rows)) (sequences [] [] [] [] [])
  ∧ count is_upsert
      (added (start ∅ no_rows) (importUserSettings (online true) (start ∅ no_rows)).2) = 0.
Proof.
  assert (H : holds (localStorage (start ∅ no_rows)) (sequences [] [] [] [] [])).
  { repeat split; vm_compute; reflexivity. }
  split; [exact H|].
  apply (importUserSettings_writes_nothing (online true) (start ∅ no_rows)).
  right. exists u1, (Postgrest.err "PGRST116" "JSON object requested, multiple (or no) rows returned").
  repeat split; vm_compute; reflexivity.
Defined.

(** C8: for a signed-in user and a store whose five texts parse,
    [exportUserSettings] makes exactly one request to the service, an
    upsert of the row made of the user's id, the five slots as read from
    the store, each under its name, and the time.  It makes no fetch, and
    this whatever the service holds: the row is sent, and the service
    answers it, whether or not a record exists. *)
Theorem exportUserSettings_always_upserts E w u d :
  auth_user E = Some u →
  holds (localStorage w) d →
  let w' := (exportUserSettings E w).2 in
  let row := [("user_id", JStr (id u));
              ("folders", folders d); ("actionButtons", actionButtons d);
              ("trainings", trainings d); ("statistics", statistics d);
              ("charts", charts d);
              ("updated_at", JStr (clock E))] in
  (exportUserSettings E w).1 = Normal tt
  ∧ List.filter (λ ev, is_select ev || is_upsert ev) (added w w') =
      [Upsert "user_settings" row "user_id"]
  ∧ count is_select (added w w') = 0
  ∧ database w' = (upsert_response E (database w) "user_settings" row "user_id").2
  ∧ localStorage w' = localStorage w.
Proof.
  intros Hu Hs w' row. subst w' row.
  change [("user_id", JStr (id u));
          ("folders", folders d); ("actionButtons", actionButtons d);
          ("trainings", trainings d); ("statistics", statistics d);
          ("charts", charts d);
          ("updated_at", JStr (clock E))]
    with (upsert_row (id u) d (clock E)).
  rewrite (exportUserSettings_run E w u d Hu Hs).
  cbn [fst snd]. unfold added, upserted. cbn [events localStorage database].
  rewrite drop_app_length.
  destruct (upsert_response E (database w) _ _ _) as [[err|] db]; repeat split.
Qed.

Lemma exportUserSettings_always_upserts_witness :
  holds (localStorage (start folders_store one_row))
    (sequences [JObj [("id", JNum "1")]] [] [] [] [])
  ∧ List.filter (λ ev, is_select ev || is_upsert ev)
      (added (start folders_store one_row)
         (exportUserSettings (online true) (start folders_store one_row)).2) =
      [Upsert "user_settings"
         [("user_id", JStr "u1"); ("folders", JArr [JObj [("id", JNum "1")]]);
          ("actionButtons", JArr []); ("trainings", JArr []);
          ("statistics", JArr []); ("charts", JArr []);
          ("updated_at", JStr "2024-05-01T10:00:00.000Z")]
         "user_id"].
Proof.
  assert (H : holds (localStorage (start folders_store one_row))
                (sequences [JObj [("id", JNum "1")]] [] [] [] [])).
  { repeat split; vm_compute; reflexivity. }
  split; [exact H|].
  apply (exportUserSettings_always_upserts (online true) (start folders_store one_row)
           u1 _ eq_refl H).
Defined.

(** C8 as stated, for every local state, fails: with text that is not JSON
    under the [folders] key, [exportUserSettings] for a signed-in user ends
    with the [SyntaxError] of the read; it sends no upsert, whether the
    service holds a record of the user or not, and the service is left as
    it was. *)
Lemma exportUserSettings_unreadable_no_upsert :
  auth_user (online true) = Some u1
  ∧ (exportUserSettings (online true) (start broken_store one_row)).1 = Throw SyntaxError
  ∧ List.filter is_upsert
      (added (start broken_store one_row)
         (exportUserSettings (online true) (start broken_store one_row)).2) = []
  ∧ database (exportUserSettings (online true) (start broken_store one_row)).2 = one_row
  ∧ (exportUserSettings (online true) (start broken_store no_rows)).1 = Throw SyntaxError
  ∧ List.filter is_upsert
      (added (start broken_store no_rows)
         (exportUserSettings (online true) (start broken_store no_rows)).2) = [].
Proof. repeat split; vm_compute; reflexivity. Qed.

(** ** Writing a partial bundle *)

Lemma slot_write_partial (p : Partial.AppData) :
  slot_write (Partial.to_object p) "folders" "poker-ranges-folders"
  = from_option (λ l, [SetItem "poker-ranges-folders" (JSON_stringify (JArr l))]) []
      (Partial.folders p)
  ∧ slot_write (Partial.to_object p) "actionButtons" "poker-ranges-actions"
  = from_option (λ l, [SetItem "poker-ranges-actions" (JSON_stringify (JArr l))]) []
      (Partial.actionButtons p)
  ∧ slot_write (Partial.to_object p) "trainings" "training-sessions"
  = from_option (λ l, [SetItem "training-sessions" (JSON_stringify (JArr l))]) []
      (Partial.trainings p)
  ∧ slot_write (Partial.to_object p) "statistics" "training-statistics"
  = from_option (λ l, [SetItem "training-statistics" (JSON_stringify (JArr l))]) []
      (Partial.statistics p)
  ∧ slot_write (Partial.to_object p) "charts" "userCharts"
  = from_option (λ l, [SetItem "userCharts" (JSON_stringify (JArr l))]) []
      (Partial.charts p).
Proof.
  destruct p as [[f|] [a|] [t|] [s|] [c|]]; repeat split.
Qed.

Lemma replay_slot key (v : option (list json)) (store : gmap string string) k :
  replay (from_option (λ l, [SetItem key (JSON_stringify (JArr l))]) [] v) store !! k =
    if String.eqb k key
    then match v with
         | Some l => Some (JSON_stringify (JArr l))
         | None => store !! k
         end
    else store !! k.
Proof.
  destruct v as [l|]; simpl.
  - destruct (String.eqb_spec k key) as [->|Hne].
    + apply lookup_insert_eq.
    + apply lookup_insert_ne. congruence.
  - destruct (String.eqb k key); reflexivity.
Qed.

(** C7: [applyDataToLocalStorage] on a partial bundle leaves, under each
    key, the serialisation of the sequence the partial carries for that
    key's slot, whatever the store held there, and under every other key,
    the five slot keys of absent slots included, exactly what the store
    held. *)
Theorem applyDataToLocalStorage_overwrites_present (p : Partial.AppData) w key :
  let w' := (applyDataToLocalStorage (Partial.to_object p) w).2 in
  localStorage w' !! key =
    match Partial.slot_of_key p key with
    | Some l => Some (JSON_stringify (JArr l))
    | None => localStorage w !! key
    end.
Proof.
  intros w'. subst w'. rewrite applyDataToLocalStorage_run. cbn [snd].
  unfold wrote. cbn [localStorage]. unfold apply_events.
  destruct (slot_write_partial p) as (-> & -> & -> & -> & ->).
  rewrite !replay_app. cbn [replay foldl].
  rewrite !replay_slot. unfold Partial.slot_of_key.
  destruct (String.eqb_spec key "userCharts") as [->|?]; simpl.
  { destruct (Partial.charts p); reflexivity. }
  destruct (String.eqb_spec key "training-statistics") as [->|?]; simpl.
  { destruct (Partial.statistics p); reflexivity. }
  destruct (String.eqb_spec key "training-sessions") as [->|?]; simpl.
  { destruct (Partial.trainings p); reflexivity. }
  destruct (String.eqb_spec key "poker-ranges-actions") as [->|?]; simpl.
  { destruct (Partial.actionButtons p); reflexivity. }
  destruct (String.eqb_spec key "poker-ranges-folders") as [->|?]; simpl.
  { destruct (Partial.folders p); reflexivity. }
  reflexivity.
Qed.

(** ** Reading the local bundle *)

Lemma JSON_parse_throws text e : JSON_parse text = Throw e → e = SyntaxError.
Proof.
  unfold JSON_parse.
  destruct (parse_value _ _) as [v r| |]; [destruct (skip_ws r)|..]; congruence.
Qed.

Lemma JSON_parse_empty_array : JSON_parse "[]" = Normal (JArr []).
Proof. reflexivity. Qed.

(** C1, as the code has it: [gatherDataFromLocalStorage] returns the
    bundle of the five parsed values when each stored text is JSON, leaving
    the store as it was; a missing or empty slot reads as the empty
    sequence; and when the text of a slot is not JSON the read throws a
    [SyntaxError] to its caller, nothing being put in the slot's place. *)
Theorem gatherDataFromLocalStorage_result w :
  (∀ d, holds (localStorage w) d →
        gatherDataFromLocalStorage w = (Normal d, log reads w))
  ∧ (∀ key, localStorage w !! key = None ∨ localStorage w !! key = Some "" →
            JSON_parse (slot_text (localStorage w) key) = Normal (JArr []))
  ∧ (∀ key e, key ∈ slot_keys →
              JSON_parse (slot_text (localStorage w) key) = Throw e →
              (gatherDataFromLocalStorage w).1 = Throw SyntaxError
              ∧ localStorage (gatherDataFromLocalStorage w).2 = localStorage w).
Proof.
  split; [|split].
  - intros d Hd. apply gatherDataFromLocalStorage_run. exact Hd.
  - intros key [H|H]; unfold slot_text; rewrite H; reflexivity.
  - intros key e Hk He. unfold slot_text in He.
    unfold gatherDataFromLocalStorage. page.
    destruct (JSON_parse (or_else (localStorage w !! "poker-ranges-folders") "[]"))
      as [v1|e1] eqn:H1; simpl.
    2:{ rewrite (JSON_parse_throws _ _ H1). split; reflexivity. }
    destruct (JSON_parse (or_else (localStorage w !! "poker-ranges-actions") "[]"))
      as [v2|e2] eqn:H2; simpl.
    2:{ rewrite (JSON_parse_throws _ _ H2). split; reflexivity. }
    destruct (JSON_parse (or_else (localStorage w !! "training-sessions") "[]"))
      as [v3|e3] eqn:H3; simpl.
    2:{ rewrite (JSON_parse_throws _ _ H3). split; reflexivity. }
    destruct (JSON_parse (or_else (localStorage w !! "training-statistics") "[]"))
      as [v4|e4] eqn:H4; simpl.
    2:{ rewrite (JSON_parse_throws _ _ H4). split; reflexivity. }
    destruct (JSON_parse (or_else (localStorage w !! "userCharts") "[]"))
      as [v5|e5] eqn:H5; simpl.
    2:{ rewrite (JSON_parse_throws _ _ H5). split; reflexivity. }
    exfalso. unfold slot_keys in Hk.
    repeat (apply elem_of_cons in Hk as [->|Hk]; [congruence|]).
    inversion Hk.
Qed.

(** C1 as stated fails: with text that is not JSON under the [folders]
    key, the read throws; it returns no bundle, so none with an empty
    [folders]. *)
Lemma gatherDataFromLocalStorage_malformed_throws :
  (gatherDataFromLocalStorage (start broken_store no_rows)).1 = Throw SyntaxError
  ∧ ¬ (∃ d, (gatherDataFromLocalStorage (start broken_store no_rows)).1 = Normal d
            ∧ folders d = JArr []).
Proof.
  split; [vm_compute; reflexivity|].
  intros (d & Hd & _). vm_compute in Hd. discriminate.
Qed.

(** The throw reaches the callers: with no record in the service,
    [importUserSettings] on that store ends with the [SyntaxError], before
    any upsert; so does [exportUserSettings]. *)
Example malformed_slot_reaches_callers :
  (importUserSettings (online true) (start broken_store no_rows)).1 = Throw SyntaxError
  ∧ count is_upsert (events (importUserSettings (online true) (start broken_store no_rows)).2) = 0
  ∧ (exportUserSettings (online true) (start broken_store no_rows)).1 = Throw SyntaxError
  ∧ count is_upsert (events (exportUserSettings (online true) (start broken_store no_rows)).2) = 0.
Proof. repeat split; vm_compute; reflexivity. Qed.

(** JSON that is not a sequence is returned as it was parsed. *)
Example gatherDataFromLocalStorage_non_sequence :
  folders <$> (gatherDataFromLocalStorage (start object_store no_rows)).1
  = Normal (JObj []).
Proof. vm_compute. reflexivity. Qed.

(** ** Reloads *)

Lemma appends_ret {A} p (a : A) : appends p (mret a : M A).
Proof. intros w. exists []. rewrite app_nil_r. split; reflexivity. Qed.

Lemma appends_lift {A} p (c : completion A) : appends p (lift c).
Proof. intros w. exists []. rewrite app_nil_r. split; reflexivity. Qed.

Lemma appends_bind {A B} p (m : M A) (f : A → M B) :
  appends p m → (∀ a, appends p (f a)) → appends p (m ≫= f).
Proof.
  intros Hm Hf w. destruct (Hm w) as (e1 & H1 & C1).
  unfold mbind, M_bind. destruct (m w) as [[a|e] w1] eqn:Hw; simpl in H1.
  - destruct (Hf a w1) as (e2 & H2 & C2). exists (e1 ++ e2).
    rewrite H2, H1, count_app, C1, C2, app_assoc. split; reflexivity.
  - exists e1. simpl. rewrite H1. split; [reflexivity|exact C1].
Qed.

Lemma appends_getItem p key :
  p (GetItem key) = false → appends p (localStorage_getItem key).
Proof.
  intros Hp w. exists [GetItem key]. unfold count. simpl. rewrite Hp.
  split; reflexivity.
Qed.

Lemma appends_console_log p args :
  p (ConsoleLog args) = false → appends p (console_log args).
Proof.
  intros Hp w. exists [ConsoleLog args]. unfold count. simpl. rewrite Hp.
  split; reflexivity.
Qed.

Lemma appends_gather : appends is_reload gatherDataFromLocalStorage.
Proof.
  unfold gatherDataFromLocalStorage.
  repeat first
    [ apply appends_bind; [|intros ?]
    | apply appends_getItem; reflexivity
    | apply appends_lift
    | apply appends_ret ].
Qed.

Lemma appends_upload E userId d : appends is_reload (uploadInitialSettings E userId d).
Proof.
  intros w. rewrite uploadInitialSettings_run. cbn [snd]. unfold upserted.
  cbn [events]. eexists. split; [reflexivity|].
  destruct (upsert_response E (database w) _ _ _) as [[e|] db]; reflexivity.
Qed.

(** Without a record, a run of [importUserSettings] schedules no reload. *)
Lemma importUserSettings_no_record E w u :
  auth_user E = Some u →
  (failure (error (select_response E (database w) "user_settings" "user_id" (id u))) = None →
   data (select_response E (database w) "user_settings" "user_id" (id u)) = None) →
  ∃ evs, events (importUserSettings E w).2 = events w ++ evs
         ∧ count is_reload evs = 0.
Proof.
  intros Hu Hr.
  destruct (failure (error (select_response E (database w) "user_settings"
                              "user_id" (id u)))) as [e|] eqn:He.
  - rewrite (importUserSettings_failure E w u _ e Hu eq_refl He).
    eexists. split; reflexivity.
  - rewrite (importUserSettings_not_found E w u _ Hu eq_refl He (Hr eq_refl)).
    match goal with |- ∃ evs, events (?m (log ?l w)).2 = _ ∧ _ =>
      assert (Hm : appends is_reload m)
    end.
    { apply appends_bind; [apply appends_gather|]. intros d.
      apply appends_bind; [apply appends_lift|]. intros [|].
      - apply appends_bind; [apply appends_console_log; reflexivity|].
        intros _. apply appends_upload.
      - apply appends_console_log. reflexivity. }
    destruct (Hm (log (fetching u ++ [ConsoleLog ["No settings found in Supabase for this user. Checking for local data to perform initial sync."]]) w))
      as (evs & H & C).
    eexists. rewrite H. cbn [log events]. rewrite <- app_assoc.
    split; [reflexivity|]. rewrite count_app, C. reflexivity.
Qed.

(** A page load for a signed-in user: the profile is fetched, then
    [importUserSettings] runs on the same store and service. *)
Lemma page_load_import E w u :
  auth_user E = Some u →
  ∃ w1 pre,
    localStorage w1 = localStorage w
    ∧ database w1 = database w
    ∧ events w1 = events w ++ pre
    ∧ count is_reload pre = 0
    ∧ events (page_load E w).2 = events (importUserSettings E w1).2
    ∧ database (page_load E w).2 = database (importUserSettings E w1).2
    ∧ localStorage (page_load E w).2 = localStorage (importUserSettings E w1).2.
Proof.
  intros Hu. unfold page_load, onAuthStateChange_callback, detached. page.
  rewrite Hu. simpl.
  destruct (failure (error (select_response E (database w) "profiles" "id" (id u))))
    as [e|]; simpl.
  - exists {| localStorage := localStorage w;
              database := database w;
              provider := {| user := Some u; session := Some {| session_user := u |};
                             profile := None; loading := true |};
              events := events w ++ [Select "profiles" "id" (id u);
                                     ConsoleError "Error fetching profile:" e] |},
           [Select "profiles" "id" (id u); ConsoleError "Error fetching profile:" e].
    rewrite <- app_assoc. repeat split.
  - exists {| localStorage := localStorage w;
              database := database w;
              provider := {| user := Some u; session := Some {| session_user := u |};
                             profile := data (select_response E (database w) "profiles"
                                                "id" (id u));
                             loading := true |};
              events := events w ++ [Select "profiles" "id" (id u)] |},
           [Select "profiles" "id" (id u)].
    repeat split.
Qed.

Lemma count_zero_existsb p evs : count p evs = 0 → existsb p evs = false.
Proof.
  unfold count. induction evs as [|ev evs IH]; [reflexivity|].
  simpl. destruct (p ev); simpl; [discriminate|exact IH].
Qed.

Lemma added_app w w' evs : events w' = events w ++ evs → added w w' = evs.
Proof. intros H. unfold added. rewrite H. apply drop_app_length. Qed.

(** C2, as the code has it: for a signed-in user for whom the fetch
    returns no record (the not-found signal, or an error), the chain of
    page loads triggers no reload, however long it is followed. *)
Theorem reloads_none_without_record E w u :
  auth_user E = Some u →
  (failure (error (select_response E (database w) "user_settings" "user_id" (id u))) = None →
   data (select_response E (database w) "user_settings" "user_id" (id u)) = None) →
  ∀ n, reloads E n w = 0.
Proof.
  intros Hu Hr [|n]; [reflexivity|]. simpl.
  destruct (page_load_import E w u Hu) as (w1 & pre & Hs & Hd & He & Hc & H1 & _).
  destruct (importUserSettings_no_record E w1 u Hu) as (evs & H2 & C2).
  { rewrite Hd. exact Hr. }
  rewrite (added_app w _ (pre ++ evs)).
  - rewrite count_zero_existsb; [reflexivity|]. rewrite count_app, Hc, C2. reflexivity.
  - rewrite H1, H2, He. repeat rewrite <- app_assoc. reflexivity.
Qed.

Lemma reloads_none_without_record_witness :
  auth_user (online true) = Some u1 ∧ reloads (online true) 3 (start folders_store no_rows) = 0.
Proof.
  split; [reflexivity|].
  apply (reloads_none_without_record (online true) (start folders_store no_rows) u1 eq_refl).
  intros _. reflexivity.
Defined.

(** With a record, every page load schedules a reload and leaves the
    service as it was, so the next page load finds the record again. *)
Lemma reloads_with_record E u R :
  auth_user E = Some u →
  ∀ n w,
    select_response E (database w) "user_settings" "user_id" (id u)
      = {| data := Some R; error := None |} →
    reloads E n w = n.
Proof.
  intros Hu. induction n as [|n IH]; intros w Hr; [reflexivity|]. simpl.
  destruct (page_load_import E w u Hu) as (w1 & pre & Hs & Hd & He & Hc & H1 & H2 & _).
  rewrite <- Hd in Hr.
  rewrite (importUserSettings_found_world E w1 u R Hu Hr) in H1, H2.
  cbn [snd wrote events database] in H1, H2.
  rewrite (added_app w _ (pre ++ fetching u
             ++ [ConsoleLog ["Settings found in Supabase, applying to local storage."]]
             ++ apply_events (obj_rest ["user_id"; "updated_at"] R))).
  2:{ rewrite H1, He. repeat rewrite <- app_assoc. reflexivity. }
  assert (Hx : existsb is_reload
                 (pre ++ fetching u
                  ++ [ConsoleLog ["Settings found in Supabase, applying to local storage."]]
                  ++ apply_events (obj_rest ["user_id"; "updated_at"] R)) = true).
  { apply existsb_exists. exists (ReloadAfter 250). split; [|reflexivity].
    apply in_or_app. right. apply in_or_app. right. apply in_or_app. right.
    unfold apply_events. repeat (apply in_or_app; right). right. left. reflexivity. }
  rewrite Hx. f_equal. apply IH. rewrite H2. exact Hr.
Qed.

(** C2 as stated fails: with a record for the signed-in user in the
    service, no number bounds the reloads of the chain of page loads. *)
Lemma reloads_unbounded_with_record :
  ¬ (∃ N, ∀ n, reloads (online true) n (start ∅ one_row) ≤ N).
Proof.
  intros (N & H). specialize (H (S N)).
  rewrite (reloads_with_record (online true) u1 (Postgrest.settings_object u1_row)
             eq_refl (S N) (start ∅ one_row) eq_refl) in H.
  lia.
Qed.

(** ** The row in the service *)

Lemma replace_row_keys uid payload now rows :
  Postgrest.user_id <$> Postgrest.replace_row uid payload now rows
  = Postgrest.user_id <$> rows.
Proof.
  induction rows as [|r rows IH]; [reflexivity|]. cbn [Postgrest.replace_row].
  destruct (String.eqb (Postgrest.user_id r) uid); rewrite !fmap_cons;
    [reflexivity|]. rewrite IH. reflexivity.
Qed.

Lemma has_row_false uid rows :
  Postgrest.has_row uid rows = false → uid ∉ Postgrest.user_id <$> rows.
Proof.
  induction rows as [|r rows IH]; cbn [Postgrest.has_row existsb]; intros H.
  - apply not_elem_of_nil.
  - apply orb_false_iff in H as [H1 H2]. rewrite fmap_cons.
    apply not_elem_of_cons. split.
    + apply String.eqb_neq in H1. congruence.
    + apply IH. exact H2.
Qed.

(** The primary key: an upsert never leaves two rows for one user. *)
Lemma upsert_settings_primary_key strict caller now db payload onConflict :
  NoDup (Postgrest.user_id <$> Postgrest.user_settings db) →
  NoDup (Postgrest.user_id <$> Postgrest.user_settings
           (Postgrest.upsert_settings strict caller now db payload onConflict).2).
Proof.
  intros Hn.
  assert (Hw : NoDup (Postgrest.user_id <$> Postgrest.user_settings
                        (Postgrest.write_settings caller now db payload onConflict).2)).
  { unfold Postgrest.write_settings.
    destruct (negb (String.eqb onConflict "user_id")); [exact Hn|].
    destruct (Postgrest.provided "user_id" payload) as [[| | |uid| |]|]; try exact Hn.
    destruct caller as [c|]; [|exact Hn].
    destruct (String.eqb (id c) uid); [|exact Hn].
    destruct (match Postgrest.provided "updated_at" payload with
              | Some (JStr t) => Some (Some t)
              | Some JNull => Some None
              | None => Some None
              | Some _ => None
              end) as [t|]; [|exact Hn].
    cbn [snd Postgrest.user_settings].
    destruct (Postgrest.has_row uid (Postgrest.user_settings db)) eqn:Hh.
    - rewrite replace_row_keys. exact Hn.
    - rewrite fmap_app. apply NoDup_app. split; [exact Hn|]. split.
      + intros x Hx Hx'. apply list_elem_of_singleton in Hx'. subst x.
        apply (has_row_false _ _ Hh). exact Hx.
      + apply NoDup_singleton. }
  unfold Postgrest.upsert_settings.
  destruct (Postgrest.unknown_key payload); [destruct strict|]; assumption.
Qed.

Lemma upsert_settings_primary_key_witness :
  NoDup (Postgrest.user_id <$> Postgrest.user_settings one_row)
  ∧ NoDup (Postgrest.user_id <$> Postgrest.user_settings
             (Postgrest.upsert_settings false (Some u1) "2024-05-01 10:00:01+00" one_row
                [("user_id", JStr "u1"); ("folders", JArr [JNum "1"])] "user_id").2).
Proof.
  assert (H : NoDup (Postgrest.user_id <$> Postgrest.user_settings one_row)).
  { apply NoDup_singleton. }
  split; [exact H|].
  apply (upsert_settings_primary_key false (Some u1) "2024-05-01 10:00:01+00" one_row
           [("user_id", JStr "u1"); ("folders", JArr [JNum "1"])] "user_id" H).
Defined.

(** Every row this module sends names a column the table does not have. *)
Lemma upsert_row_unknown_key userId d now :
  Postgrest.unknown_key (upsert_row userId d now) = Some "actionButtons".
Proof. reflexivity. Qed.

(** A fetched row has no property [actionButtons]. *)
Lemma settings_object_actionButtons r :
  obj_get "actionButtons" (Postgrest.settings_object r) = None.
Proof. reflexivity. Qed.

(** C9 on the code: [u1] saves a bundle with one folder, then a bundle
    with one action button, to a service without rows.  Both upserts are
    sent.  A strict REST layer refuses both, for the key [actionButtons],
    and the fetch that follows finds no row; a lax one keeps one row, in
    which [action_buttons] is still the empty default.  Either way the
    fetch does not return a record carrying the second bundle. *)
Theorem saved_twice_fetch strict :
  let r := select_response (online strict) (database (saved_twice strict))
             "user_settings" "user_id" "u1" in
  List.filter is_upsert (events (saved_twice strict)) =
    [Upsert "user_settings"
       (upsert_row "u1" (sequences [JObj [("id", JNum "1")]] [] [] [] [])
          "2024-05-01T10:00:00.000Z") "user_id";
     Upsert "user_settings"
       (upsert_row "u1" (sequences [] [JObj [("id", JNum "2")]] [] [] [])
          "2024-05-01T10:00:00.000Z") "user_id"]
  ∧ ¬ (∃ R, data r = Some R
            ∧ carries R (sequences [] [JObj [("id", JNum "2")]] [] [] []))
  ∧ (strict = true →
     Postgrest.user_settings (database (saved_twice strict)) = []
     ∧ data r = None)
  ∧ (strict = false →
     ∃ row, Postgrest.user_settings (database (saved_twice strict)) = [row]
            ∧ Postgrest.action_buttons row = JArr []
            ∧ data r = Some (Postgrest.settings_object row)).
Proof.
  destruct strict; cbv zeta.
  - split; [vm_compute; reflexivity|]. split; [|split].
    + intros (R & HR & _). vm_compute in HR. discriminate.
    + intros _. split; vm_compute; reflexivity.
    + discriminate.
  - split; [vm_compute; reflexivity|]. split; [|split].
    + intros (R & HR & HC). vm_compute in HR. injection HR as <-.
      unfold carries in HC. apply Forall_cons in HC as [_ HC].
      apply Forall_cons in HC as [HC _]. vm_compute in HC. discriminate.
    + discriminate.
    + intros _. eexists. split; [vm_compute; reflexivity|].
      split; vm_compute; reflexivity.
Qed.

(** ** [JSON.parse] has fuel enough *)

Lemma skip_ws_length s : length (skip_ws s) ≤ length s.
Proof.
  induction s as [|a s IH]; simpl; [lia|].
  destruct (is_json_ws a); simpl; lia.
Qed.

Lemma skip_ws_cons s a r : skip_ws s = a :: r → length r < length s.
Proof. intros H. pose proof (skip_ws_length s) as L. rewrite H in L. simpl in L. lia. Qed.

Lemma string_items_length n : ∀ acc s its r,
  length s ≤ n → string_items acc s = Some (its, r) → length r < length s.
Proof.
  induction n as [|n IH]; intros acc s its r Hn H.
  - destruct s; [discriminate|simpl in Hn; lia].
  - destruct s as [|a s]; [discriminate|]. simpl in Hn. simpl in H.
    destruct (ord a =? 34)%N.
    { injection H as _ <-. simpl. lia. }
    destruct (ord a <? 32)%N; [discriminate|].
    destruct (ord a =? 92)%N.
    2:{ apply IH in H; [simpl; lia|lia]. }
    destruct s as [|e s]; [discriminate|]. simpl in Hn.
    repeat match type of H with
           | (if ?c then string_items _ s else _) = _ =>
               destruct c; [apply IH in H; [simpl; lia|lia]|]
           end.
    destruct (ord e =? 117)%N; [|discriminate].
    destruct s as [|h1 [|h2 [|h3 [|h4 s]]]]; try discriminate.
    destruct (hex4 h1 h2 h3 h4); [|discriminate].
    simpl in Hn. apply IH in H; [simpl; lia|lia].
Qed.

Lemma parse_string_length s k r : parse_string s = Some (k, r) → length r < length s.
Proof.
  unfold parse_string. destruct (string_items [] s) as [[its r']|] eqn:H; [|discriminate].
  intros [= _ <-]. eapply string_items_length; [reflexivity|exact H].
Qed.

Lemma strip_prefix_length p s r :
  strip_prefix p s = Some r → length s = length p + length r.
Proof.
  revert s. induction p as [|a p IH]; intros s H; simpl in H.
  - injection H as <-. reflexivity.
  - destruct s as [|b s]; [discriminate|].
    destruct (Ascii.eqb a b); [|discriminate]. apply IH in H. simpl. lia.
Qed.

Lemma span_digits_length s d r : span_digits s = (d, r) → length s = length d + length r.
Proof.
  revert d r. induction s as [|a s IH]; intros d r H; simpl in H.
  - injection H as <- <-. reflexivity.
  - destruct (is_digit a).
    + destruct (span_digits s) as [d' r'] eqn:Hs. injection H as <- <-.
      specialize (IH _ _ eq_refl). simpl. lia.
    + injection H as <- <-. reflexivity.
Qed.

Lemma parse_number_length s lit r : parse_number s = Some (lit, r) → length r < length s.
Proof.
  unfold parse_number.
  destruct (match s with
            | a :: r0 => if (ord a =? 45)%N then ([a], r0) else ([], s)
            | [] => ([], s)
            end) as [sign s1] eqn:Hsign.
  assert (L1 : length s1 ≤ length s).
  { destruct s as [|a s0]; [injection Hsign as _ <-; lia|].
    destruct (ord a =? 45)%N; injection Hsign as _ <-; simpl; lia. }
  destruct (span_digits s1) as [int s2] eqn:Hint.
  apply span_digits_length in Hint.
  destruct int as [|d ds]; [discriminate|]. simpl in Hint.
  destruct ((ord d =? 48)%N && negb match ds with [] => true | _ => false end);
    [discriminate|].
  destruct (match s2 with
            | p :: r0 =>
                if (ord p =? 46)%N
                then let '(f, r') := span_digits r0 in
                     match f with [] => None | _ => Some (p :: f, r') end
                else Some ([], s2)
            | [] => Some ([], s2)
            end) as [[f s3]|] eqn:Hfrac; [|discriminate].
  assert (L3 : length s3 ≤ length s2).
  { destruct s2 as [|p s0]; [injection Hfrac as _ <-; lia|].
    destruct (ord p =? 46)%N; [|injection Hfrac as _ <-; lia].
    destruct (span_digits s0) as [f' r'] eqn:Hf. apply span_digits_length in Hf.
    destruct f'; [discriminate|]. injection Hfrac as _ <-. simpl. lia. }
  destruct (match s3 with
            | e :: r0 =>
                if (ord e =? 101)%N || (ord e =? 69)%N
                then
                  let '(sg, r1) :=
                    match r0 with
                    | g :: r2 => if (ord g =? 43)%N || (ord g =? 45)%N
                                 then ([g], r2) else ([], r0)
                    | [] => ([], r0)
                    end in
                  let '(x, r2) := span_digits r1 in
                  match x with [] => None | _ => Some (e :: sg ++ x, r2) end
                else Some ([], s3)
            | [] => Some ([], s3)
            end) as [[x s4]|] eqn:Hexp; [|discriminate].
  assert (L4 : length s4 ≤ length s3).
  { destruct s3 as [|e s0]; [injection Hexp as _ <-; lia|].
    destruct ((ord e =? 101)%N || (ord e =? 69)%N); [|injection Hexp as _ <-; lia].
    destruct (match s0 with
              | g :: r2 => if (ord g =? 43)%N || (ord g =? 45)%N
                           then ([g], r2) else ([], s0)
              | [] => ([], s0)
              end) as [sg r1] eqn:Hsg.
    assert (length r1 ≤ length s0).
    { destruct s0 as [|g s0']; [injection Hsg as _ <-; lia|].
      destruct ((ord g =? 43)%N || (ord g =? 45)%N); injection Hsg as _ <-; simpl; lia. }
    destruct (span_digits r1) as [x' r2] eqn:Hx. apply span_digits_length in Hx.
    destruct x'; [discriminate|]. injection Hexp as _ <-. simpl. lia. }
  intros [= _ <-]. lia.
Qed.

Lemma parse_literal_length s v r :
  s ≠ [] → parse_literal s = POk v r → length r < length s.
Proof.
  intros Hs. unfold parse_literal.
  destruct (strip_prefix (list_ascii_of_string "true") s) eqn:H1.
  { intros [= _ <-]. apply strip_prefix_length in H1. simpl in H1. lia. }
  destruct (strip_prefix (list_ascii_of_string "false") s) eqn:H2.
  { intros [= _ <-]. apply strip_prefix_length in H2. simpl in H2. lia. }
  destruct (strip_prefix (list_ascii_of_string "null") s) eqn:H3.
  { intros [= _ <-]. apply strip_prefix_length in H3. simpl in H3. lia. }
  destruct (parse_number s) as [[lit r']|] eqn:H4; [|discriminate].
  intros [= _ <-]. apply parse_number_length in H4. exact H4.
Qed.

Lemma parse_literal_fuel s : parse_literal s ≠ PFuel.
Proof.
  unfold parse_literal.
  repeat match goal with
         | |- context [match ?x with _ => _ end] => destruct x as [[? ?]|] || destruct x
         end; discriminate.
Qed.

Lemma consumes_err s : consumes s PErr.
Proof. split; [discriminate|]. intros v r H. discriminate. Qed.

Lemma consumes_ok s v r : length r < length s → consumes s (POk v r).
Proof. intros H. split; [discriminate|]. intros v' r' [= _ <-]. exact H. Qed.

Lemma consumes_shorter s s' p : length s' ≤ length s → consumes s' p → consumes s p.
Proof. intros L [H1 H2]. split; [exact H1|]. intros v r H. apply H2 in H. lia. Qed.

Lemma parse_fuel_enough f :
  (∀ s, 2 * length s < f → consumes s (parse_value f s))
  ∧ (∀ acc s, 2 * length s + 1 < f → consumes s (parse_elements f acc s))
  ∧ (∀ acc s, 2 * length s + 1 < f → consumes s (parse_members f acc s)).
Proof.
  induction f as [|f (IHv & IHe & IHm)]; [repeat split; intros; lia|].
  split; [|split].
  - intros s Hf. cbn [parse_value].
    destruct (skip_ws s) as [|a r] eqn:Hs; [apply consumes_err|].
    apply skip_ws_cons in Hs.
    destruct (ord a =? 123)%N.
    { destruct (skip_ws r) as [|b r'] eqn:Hr; [apply consumes_err|].
      apply skip_ws_cons in Hr.
      destruct (ord b =? 125)%N; [apply consumes_ok; lia|].
      apply (consumes_shorter s r); [lia|]. apply IHm. lia. }
    destruct (ord a =? 91)%N.
    { destruct (skip_ws r) as [|b r'] eqn:Hr; [apply consumes_err|].
      apply skip_ws_cons in Hr.
      destruct (ord b =? 93)%N; [apply consumes_ok; lia|].
      apply (consumes_shorter s r); [lia|]. apply IHe. lia. }
    destruct (ord a =? 34)%N.
    { destruct (parse_string r) as [[str r']|] eqn:Hp; [|apply consumes_err].
      apply parse_string_length in Hp. apply consumes_ok. lia. }
    split; [apply parse_literal_fuel|].
    intros v r' H. apply parse_literal_length in H; [simpl in H; lia|discriminate].
  - intros acc s Hf. cbn [parse_elements].
    destruct (IHv s) as [Hv1 Hv2]; [lia|].
    destruct (parse_value f s) as [v r| |] eqn:Hp;
      [|apply consumes_err|contradiction].
    specialize (Hv2 v r eq_refl).
    destruct (skip_ws r) as [|a r'] eqn:Hr; [apply consumes_err|].
    apply skip_ws_cons in Hr.
    destruct (ord a =? 44)%N.
    { apply (consumes_shorter s r'); [lia|]. apply IHe. lia. }
    destruct (ord a =? 93)%N; [apply consumes_ok; lia|apply consumes_err].
  - intros acc s Hf. cbn [parse_members].
    destruct (skip_ws s) as [|q r] eqn:Hs; [apply consumes_err|].
    apply skip_ws_cons in Hs.
    destruct (ord q =? 34)%N; [|apply consumes_err].
    destruct (parse_string r) as [[k r1]|] eqn:Hk; [|apply consumes_err].
    apply parse_string_length in Hk.
    destruct (skip_ws r1) as [|c r2] eqn:Hr1; [apply consumes_err|].
    apply skip_ws_cons in Hr1.
    destruct (ord c =? 58)%N; [|apply consumes_err].
    destruct (IHv r2) as [Hv1 Hv2]; [lia|].
    destruct (parse_value f r2) as [v r3| |] eqn:Hp;
      [|apply consumes_err|contradiction].
    specialize (Hv2 v r3 eq_refl).
    destruct (skip_ws r3) as [|a r4] eqn:Hr3; [apply consumes_err|].
    apply skip_ws_cons in Hr3.
    destruct (ord a =? 44)%N.
    { apply (consumes_shorter s r4); [lia|]. apply IHm. lia. }
    destruct (ord a =? 125)%N; [apply consumes_ok; lia|apply consumes_err].
Qed.

(** [JSON_parse] never stops for lack of fuel: a [SyntaxError] it reports
    is one of the text. *)
Lemma JSON_parse_fuel text :
  parse_value (parse_fuel (list_ascii_of_string text)) (list_ascii_of_string text) ≠ PFuel.
Proof.
  destruct (parse_fuel_enough (parse_fuel (list_ascii_of_string text))) as (H & _).
  apply H. unfold parse_fuel. lia.
Qed.

(** ** The two scenarios of a first sync *)

(** A record whose [charts] has one element: after [importUserSettings]
    the local [userCharts] slot holds that sequence, and one reload is
    scheduled. *)
Example remote_charts_applied :
  let w' := (importUserSettings (online true) (start ∅ one_row)).2 in
  localStorage w' !! "userCharts" = Some (JSON_stringify (JArr [JObj [("id", JNum "9")]]))
  ∧ count is_reload (events w') = 1.
Proof. split; vm_compute; reflexivity. Qed.

(** The fetched row names its action buttons [action_buttons];
    [applyDataToLocalStorage] looks for [actionButtons], finds none, and
    leaves the local slot alone. *)
Example remote_action_buttons_not_applied :
  let row := {| Postgrest.user_id := "u1";
                Postgrest.folders := JArr [];
                Postgrest.action_buttons := JArr [JObj [("id", JNum "2")]];
                Postgrest.trainings := JArr [];
                Postgrest.statistics := JArr [];
                Postgrest.charts := JArr [];
                Postgrest.updated_at := None |} in
  let db := {| Postgrest.user_settings := [row]; Postgrest.profiles := [] |} in
  localStorage (importUserSettings (online true) (start ∅ db)).2 !! "poker-ranges-actions"
  = None.
Proof. vm_compute. reflexivity. Qed.

(* ===================================================================== *)
(** * More of the service: the policies and the key of [user_settings] *)
(* ===================================================================== *)

Lemma eq_filter_elem column value o rows :
  In o (Postgrest.eq_filter column value rows) → In o rows.
Proof. unfold Postgrest.eq_filter. intros H. apply filter_In in H. tauto. Qed.

Lemma single_data rows R :
  data (Postgrest.single rows) = Some R → rows = [R].
Proof.
  destruct rows as [|r [|r' rest]]; simpl; try discriminate.
  intros [= ->]. reflexivity.
Qed.

(** The SELECT policy: a fetch from [user_settings] that returns a record
    returns a row of the table keyed by the caller's own id, whatever
    column and value the filter names. *)
Theorem select_settings_own_row caller db column value R :
  data (Postgrest.select_eq_single caller db "user_settings" column value) = Some R →
  ∃ c row,
    caller = Some c
    ∧ row ∈ Postgrest.user_settings db
    ∧ Postgrest.user_id row = id c
    ∧ R = Postgrest.settings_object row.
Proof.
  unfold Postgrest.select_eq_single. cbn [String.eqb Ascii.eqb Bool.eqb].
  destruct (bool_decide (column ∈ Postgrest.settings_columns)); [|discriminate].
  intros H. apply single_data in H.
  assert (Hin : In R (Postgrest.eq_filter column value
                        (Postgrest.settings_object <$> Postgrest.visible_settings caller db))).
  { rewrite H. left. reflexivity. }
  apply eq_filter_elem in Hin. apply list_elem_of_In in Hin.
  apply list_elem_of_fmap in Hin as (row & -> & Hrow).
  destruct caller as [c|]; [|inversion Hrow].
  apply list_elem_of_filter in Hrow as [Hid Hrow].
  exists c, row. repeat split; assumption.
Qed.

Lemma select_settings_own_row_witness :
  data (Postgrest.select_eq_single (Some u1) two_rows "user_settings" "user_id" "u1")
    = Some (Postgrest.settings_object u1_row)
  ∧ ∃ c row,
      Some u1 = Some c
      ∧ row ∈ Postgrest.user_settings two_rows
      ∧ Postgrest.user_id row = id c
      ∧ Postgrest.settings_object u1_row = Postgrest.settings_object row.
Proof.
  split; [reflexivity|].
  apply (select_settings_own_row (Some u1) two_rows "user_id" "u1"
           (Postgrest.settings_object u1_row) eq_refl).
Defined.

Lemma replace_row_other uid payload now rows row :
  Postgrest.user_id row ≠ uid →
  row ∈ Postgrest.replace_row uid payload now rows ↔ row ∈ rows.
Proof.
  intros Hne. induction rows as [|r rows IH]; [reflexivity|].
  cbn [Postgrest.replace_row].
  destruct (String.eqb_spec (Postgrest.user_id r) uid) as [He|He].
  - rewrite !elem_of_cons. split; intros [->|H]; try (right; exact H).
    + exfalso. apply Hne. simpl. exact He.
    + exfalso. apply Hne. exact He.
  - rewrite !elem_of_cons, IH. reflexivity.
Qed.

(** The INSERT and UPDATE policies: an upsert, accepted or refused, neither
    adds, removes nor changes a row keyed by another id than the caller's. *)
Theorem upsert_settings_other_rows strict c now db payload onConflict row :
  Postgrest.user_id row ≠ id c →
  row ∈ Postgrest.user_settings
          (Postgrest.upsert_settings strict (Some c) now db payload onConflict).2
  ↔ row ∈ Postgrest.user_settings db.
Proof.
  intros Hne.
  assert (Hw : row ∈ Postgrest.user_settings
                       (Postgrest.write_settings (Some c) now db payload onConflict).2
               ↔ row ∈ Postgrest.user_settings db).
  { unfold Postgrest.write_settings.
    destruct (negb (String.eqb onConflict "user_id")); [reflexivity|].
    destruct (Postgrest.provided "user_id" payload) as [[| | |uid| |]|]; try reflexivity.
    destruct (String.eqb_spec (id c) uid) as [<-|?]; [|reflexivity].
    destruct (match Postgrest.provided "updated_at" payload with
              | Some (JStr t) => Some (Some t)
              | Some JNull => Some None
              | None => Some None
              | Some _ => None
              end) as [t|]; [|reflexivity].
    cbn [snd Postgrest.user_settings].
    destruct (Postgrest.has_row (id c) (Postgrest.user_settings db)).
    - apply replace_row_other. exact Hne.
    - rewrite elem_of_app, list_elem_of_singleton. split; [|tauto].
      intros [H| ->]; [exact H|]. exfalso. apply Hne. reflexivity. }
  unfold Postgrest.upsert_settings.
  destruct (Postgrest.unknown_key payload); [destruct strict|]; try exact Hw.
  reflexivity.
Qed.

Lemma upsert_settings_other_rows_witness :
  Postgrest.user_id u2_row ≠ id u1
  ∧ (u2_row ∈ Postgrest.user_settings
       (Postgrest.upsert_settings false (Some u1) "2024-05-01 10:00:01+00" two_rows
          [("user_id", JStr "u1"); ("folders", JArr [JNum "1"])] "user_id").2
     ↔ u2_row ∈ Postgrest.user_settings two_rows).
Proof.
  assert (H : Postgrest.user_id u2_row ≠ id u1) by discriminate.
  split; [exact H|].
  apply (upsert_settings_other_rows false u1 "2024-05-01 10:00:01+00" two_rows
           [("user_id", JStr "u1"); ("folders", JArr [JNum "1"])] "user_id" u2_row H).
Defined.







(* ===================================================================== *)
(** * More of data-manager.ts: what the functions never do *)
(* ===================================================================== *)

Lemma preserves_bind {A B X} (f : world → X) (m : M A) (k : A → M B) :
  preserves f m → (∀ a, preserves f (k a)) → preserves f (m ≫= k).
Proof.
  intros Hm Hk w. unfold mbind, M_bind. specialize (Hm w).
  destruct (m w) as [[a|e] w1]; simpl in *.
  - rewrite Hk. exact Hm.
  - exact Hm.
Qed.

(** A built-in that leaves [f] alone by computation. *)
Ltac keeps :=
  let w := fresh "w" in
  first [ intros w; reflexivity | intros ? w; reflexivity ].

(** Works through a sequence of built-ins. *)
Ltac keeps_all :=
  repeat first [ keeps | apply preserves_bind; [|intros ?] ].

Lemma gather_keeps_database : preserves database gatherDataFromLocalStorage.
Proof. unfold gatherDataFromLocalStorage. keeps_all. Qed.

Lemma gather_keeps_store : preserves localStorage gatherDataFromLocalStorage.
Proof. unfold gatherDataFromLocalStorage. keeps_all. Qed.

Lemma apply_keeps_database data : preserves database (applyDataToLocalStorage data).
Proof. intros w. rewrite applyDataToLocalStorage_run. reflexivity. Qed.

(** A strict REST layer refuses every row the module sends: the service
    is as before. *)
Lemma strict_upsert_row E db userId d now :
  strict_columns E = true →
  (upsert_response E db "user_settings" (upsert_row userId d now) "user_id").2 = db.
Proof.
  intros Hs. unfold upsert_response.
  destruct (fault E _); [reflexivity|]. cbn [String.eqb Ascii.eqb Bool.eqb].
  unfold Postgrest.upsert_settings. rewrite upsert_row_unknown_key, Hs. reflexivity.
Qed.

Lemma strict_upload_keeps_database E userId d :
  strict_columns E = true → preserves database (uploadInitialSettings E userId d).
Proof.
  intros Hs w. rewrite uploadInitialSettings_run. cbn [snd upserted database].
  apply strict_upsert_row. exact Hs.
Qed.

Lemma strict_import_keeps_database E :
  strict_columns E = true → preserves database (importUserSettings E).
Proof.
  intros Hs. unfold importUserSettings.
  apply preserves_bind; [keeps|]. intros [u|]; [|keeps].
  apply preserves_bind; [keeps|]. intros _.
  apply preserves_bind; [keeps|]. intros r.
  destruct (failure (error r)); [keeps_all|].
  destruct (data r).
  - apply preserves_bind; [keeps|]. intros _. apply apply_keeps_database.
  - apply preserves_bind; [keeps|]. intros _.
    apply preserves_bind; [apply gather_keeps_database|]. intros d.
    apply preserves_bind; [keeps|]. intros [|]; [|keeps].
    apply preserves_bind; [keeps|]. intros _.
    apply strict_upload_keeps_database. exact Hs.
Qed.

Lemma strict_export_keeps_database E :
  strict_columns E = true → preserves database (exportUserSettings E).
Proof.
  intros Hs. unfold exportUserSettings.
  apply preserves_bind; [keeps|]. intros [u|]; [|keeps].
  apply preserves_bind; [keeps|]. intros _.
  apply preserves_bind; [apply gather_keeps_database|]. intros d.
  apply preserves_bind; [keeps|]. intros now.
  apply preserves_bind.
  - intros w. unfold supabase_upsert.
    pose proof (strict_upsert_row E (database w) (id u) d now Hs) as H.
    destruct (upsert_response E (database w) _ _ _) as [e db]. exact H.
  - intros [e|]; keeps_all.
Qed.

(** Against the table of the migration behind a strict REST layer, no run
    of [importUserSettings] or [exportUserSettings] changes the service:
    whatever the store holds and whoever is signed in, every row they send
    is refused for its key [actionButtons]. *)
Theorem strict_service_never_written E w :
  strict_columns E = true →
  database (importUserSettings E w).2 = database w
  ∧ database (exportUserSettings E w).2 = database w.
Proof.
  intros Hs. split.
  - apply strict_import_keeps_database. exact Hs.
  - apply strict_export_keeps_database. exact Hs.
Qed.

Lemma strict_service_never_written_witness :
  strict_columns (online true) = true
  ∧ database (exportUserSettings (online true) (start folders_store one_row)).2
    = database (start folders_store one_row).
Proof.
  split; [reflexivity|].
  apply (strict_service_never_written (online true) (start folders_store one_row) eq_refl).
Defined.

(** A built-in that adds one event, not one of those [p] selects. *)
Ltac adds :=
  let w := fresh "w" in
  intros w; eexists; split; [simpl; reflexivity|reflexivity].

Ltac adds_all :=
  repeat first
    [ apply appends_ret | apply appends_lift | adds
    | apply appends_bind; [|intros ?] ].

Lemma appends_upsert E p table row onConflict :
  p (Upsert table row onConflict) = false →
  appends p (supabase_upsert E table row onConflict).
Proof.
  intros Hp w. unfold supabase_upsert.
  destruct (upsert_response E (database w) table row onConflict) as [e db].
  exists [Upsert table row onConflict]. split; [reflexivity|].
  unfold count. simpl. rewrite Hp. reflexivity.
Qed.

Lemma upsert_keeps_store E table row onConflict :
  preserves localStorage (supabase_upsert E table row onConflict).
Proof.
  intros w. unfold supabase_upsert.
  destruct (upsert_response E (database w) table row onConflict) as [e db].
  reflexivity.
Qed.

Lemma appends_gather_any p :
  (∀ k, p (GetItem k) = false) → appends p gatherDataFromLocalStorage.
Proof.
  intros Hp. unfold gatherDataFromLocalStorage.
  repeat first
    [ apply appends_bind; [|intros ?]
    | apply appends_getItem; apply Hp
    | apply appends_lift
    | apply appends_ret ].
Qed.

Lemma count_weaken (p q : event → bool) evs :
  (∀ ev, p ev = true → q ev = true) → count q evs = 0 → count p evs = 0.
Proof.
  intros Hp. unfold count. induction evs as [|ev evs IH]; [reflexivity|].
  simpl. destruct (q ev) eqn:Hq; [discriminate|].
  destruct (p ev) eqn:Hpe; [apply Hp in Hpe; congruence|]. exact IH.
Qed.

Lemma export_appends E : appends local_or_fetch (exportUserSettings E).
Proof.
  unfold exportUserSettings.
  apply appends_bind; [adds|]. intros [u|]; [|adds].
  apply appends_bind; [adds|]. intros _.
  apply appends_bind; [apply appends_gather_any; reflexivity|]. intros d.
  apply appends_bind; [apply appends_ret|]. intros now.
  apply appends_bind; [apply appends_upsert; reflexivity|].
  intros [e|]; adds_all.
Qed.

Lemma export_keeps_store E : preserves localStorage (exportUserSettings E).
Proof.
  unfold exportUserSettings.
  apply preserves_bind; [keeps|]. intros [u|]; [|keeps].
  apply preserves_bind; [keeps|]. intros _.
  apply preserves_bind; [apply gather_keeps_store|]. intros d.
  apply preserves_bind; [keeps|]. intros now.
  apply preserves_bind; [apply upsert_keeps_store|].
  intros [e|]; keeps_all.
Qed.

(** [exportUserSettings] only ever uploads: whatever the store holds,
    readable or not, and whoever is signed in, it writes nothing to the
    local store, makes no fetch and schedules no reload; signed out, it
    shows its alert and does nothing else, not even read the store. *)
Theorem exportUserSettings_only_uploads E w :
  let w' := (exportUserSettings E w).2 in
  localStorage w' = localStorage w
  ∧ count is_set_item (added w w') = 0
  ∧ count is_select (added w w') = 0
  ∧ count is_reload (added w w') = 0
  ∧ (auth_user E = None →
     added w w' = [GetUser;
                   Alert "Для сохранения настроек в облако необходимо войти в аккаунт."]).
Proof.
  intros w'. subst w'. split; [apply export_keeps_store|].
  assert (Hout : auth_user E = None →
                 added w (exportUserSettings E w).2 =
                   [GetUser;
                    Alert "Для сохранения настроек в облако необходимо войти в аккаунт."]).
  { intros Hu. apply added_app. unfold exportUserSettings. page. rewrite Hu.
    simpl. rewrite <- app_assoc. reflexivity. }
  destruct (export_appends E w) as (evs & He & Hc).
  rewrite (added_app _ _ _ He) in *.
  repeat split.
  - apply (count_weaken _ local_or_fetch); [|exact Hc].
    intros ev H. unfold local_or_fetch. rewrite H. reflexivity.
  - apply (count_weaken _ local_or_fetch); [|exact Hc].
    intros ev H. unfold local_or_fetch. rewrite H. apply orb_true_iff. left. apply orb_true_r.
  - apply (count_weaken _ local_or_fetch); [|exact Hc].
    intros ev H. unfold local_or_fetch. rewrite H. apply orb_true_r.
  - exact Hout.
Qed.

(** ** What [applyDataToLocalStorage] writes, for any argument *)

Lemma apply_events_alert data : count is_alert (apply_events data) = 1.
Proof.
  unfold apply_events. rewrite !count_app.
  rewrite !count_slot_write by (intros; reflexivity). reflexivity.
Qed.

(** [applyDataToLocalStorage] on any object, as [importUserSettings] calls
    it: under each of the five keys it leaves the serialisation of the
    property's value when that value is truthy; a property that is missing,
    [null], [false], zero or the empty string leaves the key as it was, and
    so is every other key.  Whatever was written, and even when nothing
    was, it shows its alert once and schedules one reload. *)
Theorem applyDataToLocalStorage_any_object data w key :
  let w' := (applyDataToLocalStorage data w).2 in
  localStorage w' !! key = applied data key (localStorage w !! key)
  ∧ count is_alert (added w w') = 1
  ∧ count is_reload (added w w') = 1.
Proof.
  intros w'. subst w'. rewrite applyDataToLocalStorage_run. cbn [snd].
  rewrite added_wrote, apply_events_alert, apply_events_reload.
  split; [|split; reflexivity]. apply replay_apply_events.
Qed.

Lemma replay_found u R (store : gmap string string) :
  replay (fetching u
          ++ [ConsoleLog ["Settings found in Supabase, applying to local storage."]]
          ++ apply_events (obj_rest ["user_id"; "updated_at"] R)) store
  = replay (apply_events (obj_rest ["user_id"; "updated_at"] R)) store.
Proof. rewrite !replay_app. reflexivity. Qed.

(** A row of [user_settings] fetched and applied: the local slots of
    [folders], [trainings], [statistics] and [charts] take the
    serialisation of the row's column when it is truthy; the slot of the
    action buttons is left as it was, whatever the column
    [action_buttons] holds, since the code looks for [actionButtons]. *)
Theorem importUserSettings_row_applied E w u row :
  auth_user E = Some u →
  select_response E (database w) "user_settings" "user_id" (id u)
    = {| data := Some (Postgrest.settings_object row); error := None |} →
  let store' := localStorage (importUserSettings E w).2 in
  store' !! "poker-ranges-actions" = localStorage w !! "poker-ranges-actions"
  ∧ (truthy (Postgrest.folders row) = true →
     store' !! "poker-ranges-folders" = Some (JSON_stringify (Postgrest.folders row)))
  ∧ (truthy (Postgrest.trainings row) = true →
     store' !! "training-sessions" = Some (JSON_stringify (Postgrest.trainings row)))
  ∧ (truthy (Postgrest.statistics row) = true →
     store' !! "training-statistics" = Some (JSON_stringify (Postgrest.statistics row)))
  ∧ (truthy (Postgrest.charts row) = true →
     store' !! "userCharts" = Some (JSON_stringify (Postgrest.charts row))).
Proof.
  intros Hu Hr store'. subst store'.
  rewrite (importUserSettings_found_world E w u _ Hu Hr). cbn [snd wrote localStorage].
  rewrite replay_found.
  repeat split; try intros Ht; rewrite replay_apply_events;
    unfold applied; simpl; try rewrite Ht; reflexivity.
Qed.

Lemma importUserSettings_row_applied_witness :
  auth_user (online true) = Some u1
  ∧ localStorage (importUserSettings (online true) (start actions_store one_row)).2
      !! "poker-ranges-actions"
    = localStorage (start actions_store one_row) !! "poker-ranges-actions".
Proof.
  split; [reflexivity|].
  apply (importUserSettings_row_applied (online true) (start actions_store one_row)
           u1 u1_row eq_refl eq_refl).
Defined.

Lemma applied_twice data key old :
  applied data key (applied data key old) = applied data key old.
Proof.
  unfold applied. destruct (slot_property key) as [k|]; [|reflexivity].
  destruct (obj_get k data) as [v|]; [|reflexivity].
  destruct (truthy v); reflexivity.
Qed.

(** Applying the same record again changes nothing locally: a second run
    of [importUserSettings] that fetches the record the first one fetched
    leaves the store as the first run left it, and schedules a reload
    again. *)
Theorem importUserSettings_again E w u R :
  auth_user E = Some u →
  select_response E (database w) "user_settings" "user_id" (id u)
    = {| data := Some R; error := None |} →
  let w1 := (importUserSettings E w).2 in
  let w2 := (importUserSettings E w1).2 in
  localStorage w2 = localStorage w1
  ∧ database w2 = database w
  ∧ count is_reload (added w1 w2) = 1.
Proof.
  intros Hu Hr w1 w2. subst w2 w1.
  rewrite (importUserSettings_found_world E w u R Hu Hr). cbn [snd].
  match goal with |- context [importUserSettings E ?w1] =>
    rewrite (importUserSettings_found_world E w1 u R Hu Hr)
  end.
  cbn [snd]. rewrite added_wrote. cbn [wrote localStorage database].
  rewrite !count_app, apply_events_reload.
  split; [|split; reflexivity].
  rewrite !replay_found. apply map_eq. intros key.
  rewrite !replay_apply_events. apply applied_twice.
Qed.

Lemma importUserSettings_again_witness :
  auth_user (online true) = Some u1
  ∧ localStorage
      (importUserSettings (online true)
         (importUserSettings (online true) (start folders_store one_row)).2).2
    = localStorage (importUserSettings (online true) (start folders_store one_row)).2.
Proof.
  split; [reflexivity|].
  apply (importUserSettings_again (online true) (start folders_store one_row) u1
           (Postgrest.settings_object u1_row) eq_refl eq_refl).
Defined.

(** ** Without a record *)

Lemma upload_keeps_store E userId d : preserves localStorage (uploadInitialSettings E userId d).
Proof. intros w. rewrite uploadInitialSettings_run. reflexivity. Qed.

Lemma upload_appends E userId d :
  appends (λ ev, is_set_item ev || is_reload ev) (uploadInitialSettings E userId d).
Proof.
  intros w. rewrite uploadInitialSettings_run. cbn [snd upserted events].
  eexists. split; [reflexivity|].
  destruct (upsert_response E (database w) _ _ _) as [[e|] db]; reflexivity.
Qed.

(** The local store is written only when a record was fetched: signed out,
    on a failed fetch, and on the not-found signal, whatever the store
    holds (text that does not parse included) and however the run ends,
    [importUserSettings] leaves the store as it was and schedules no
    reload. *)
Theorem importUserSettings_store_needs_record E w :
  (∀ u, auth_user E = Some u →
        failure (error (select_response E (database w) "user_settings" "user_id" (id u))) = None →
        data (select_response E (database w) "user_settings" "user_id" (id u)) = None) →
  let w' := (importUserSettings E w).2 in
  localStorage w' = localStorage w
  ∧ count is_set_item (added w w') = 0
  ∧ count is_reload (added w w') = 0.
Proof.
  intros Hr w'. subst w'.
  destruct (auth_user E) as [u|] eqn:Hu.
  2:{ rewrite (importUserSettings_signed_out E w Hu). cbn [snd].
      rewrite added_log. repeat split. }
  specialize (Hr u eq_refl).
  destruct (failure (error (select_response E (database w) "user_settings"
                              "user_id" (id u)))) as [e|] eqn:He.
  { rewrite (importUserSettings_failure E w u _ e Hu eq_refl He). cbn [snd].
    rewrite added_log. repeat split. }
  rewrite (importUserSettings_not_found E w u _ Hu eq_refl He (Hr eq_refl)).
  match goal with |- context [(?m (log ?l w)).2] =>
    assert (Hm : appends (λ ev, is_set_item ev || is_reload ev) m);
    [|assert (Hk : preserves localStorage m)]
  end.
  { apply appends_bind; [apply appends_gather_any; reflexivity|]. intros d.
    apply appends_bind; [apply appends_lift|]. intros [|]; [|adds].
    apply appends_bind; [adds|]. intros _. apply upload_appends. }
  { apply preserves_bind; [apply gather_keeps_store|]. intros d.
    apply preserves_bind; [keeps|]. intros [|]; [|keeps].
    apply preserves_bind; [keeps|]. intros _. apply upload_keeps_store. }
  split; [rewrite Hk; reflexivity|].
  match goal with |- context [(?m (log ?l w)).2] =>
    destruct (Hm (log l w)) as (evs & H & C);
    rewrite (added_app w _ (l ++ evs))
  end.
  2:{ rewrite H. cbn [log events]. rewrite <- app_assoc. reflexivity. }
  rewrite !count_app.
  split.
  - rewrite (count_weaken is_set_item (λ ev, is_set_item ev || is_reload ev) evs);
      [reflexivity| |exact C].
    intros ev Hx. rewrite Hx. reflexivity.
  - rewrite (count_weaken is_reload (λ ev, is_set_item ev || is_reload ev) evs);
      [reflexivity| |exact C].
    intros ev Hx. rewrite Hx. apply orb_true_r.
Qed.

Lemma importUserSettings_store_needs_record_witness :
  localStorage (importUserSettings (online true) (start broken_store no_rows)).2
  = localStorage (start broken_store no_rows).
Proof.
  apply (importUserSettings_store_needs_record (online true) (start broken_store no_rows)).
  intros u _ _. reflexivity.
Defined.

(** The test for local data can throw: when the store holds a bundle on
    which [localData] is read but [Object.values(localData).some(...)]
    throws (a slot holding [null] before any slot with elements), the run
    ends with that exception, after the reads and before any upsert. *)
Theorem importUserSettings_test_throws E w u r d e :
  auth_user E = Some u →
  select_response E (database w) "user_settings" "user_id" (id u) = r →
  failure (error r) = None →
  data r = None →
  holds (localStorage w) d →
  some length_gt_0 (Object_values d) = Throw e →
  let w' := (importUserSettings E w).2 in
  (importUserSettings E w).1 = Throw e
  ∧ count is_upsert (added w w') = 0
  ∧ localStorage w' = localStorage w
  ∧ database w' = database w.
Proof.
  intros Hu Hr He Hd Hs Hl w'. subst w'.
  rewrite (importUserSettings_not_found E w u r Hu Hr He Hd).
  erewrite bind_normal; [|apply gatherDataFromLocalStorage_run; exact Hs].
  cbv beta. rewrite Hl.
  erewrite bind_throw; [|reflexivity].
  cbn [fst snd]. rewrite log_log, added_log. repeat split.
Qed.

Lemma importUserSettings_test_throws_witness :
  holds (localStorage (start null_store no_rows))
    {| folders := JNull; actionButtons := JArr []; trainings := JArr [];
       statistics := JArr []; charts := JArr [] |}
  ∧ (importUserSettings (online true) (start null_store no_rows)).1 = Throw TypeError.
Proof.
  assert (H : holds (localStorage (start null_store no_rows))
                {| folders := JNull; actionButtons := JArr []; trainings := JArr [];
                   statistics := JArr []; charts := JArr [] |}).
  { repeat split; vm_compute; reflexivity. }
  split; [exact H|].
  apply (importUserSettings_test_throws (online true) (start null_store no_rows) u1
           _ _ TypeError eq_refl eq_refl eq_refl eq_refl H eq_refl).
Defined.

(* ===================================================================== *)
(** * More of AuthProvider: what a notification does *)
(* ===================================================================== *)

Lemma import_keeps_provider E : preserves provider (importUserSettings E).
Proof.
  unfold importUserSettings.
  apply preserves_bind; [keeps|]. intros [u|]; [|keeps].
  apply preserves_bind; [keeps|]. intros _.
  apply preserves_bind; [keeps|]. intros r.
  destruct (failure (error r)); [keeps_all|].
  destruct (data r).
  - apply preserves_bind; [keeps|]. intros _.
    intros w. rewrite applyDataToLocalStorage_run. reflexivity.
  - apply preserves_bind; [keeps|]. intros _.
    apply preserves_bind; [unfold gatherDataFromLocalStorage; keeps_all|]. intros d.
    apply preserves_bind; [keeps|]. intros [|]; [|keeps].
    apply preserves_bind; [keeps|]. intros _.
    intros w. rewrite uploadInitialSettings_run. reflexivity.
Qed.

(** Every notification settles the provider: the callback completes
    normally even when the sync it starts throws; afterwards [loading] is
    off and [session] and [user] are those of the notification; the profile
    is the fetched one, or none after a failed fetch.  A notification
    without session makes no request, reads and writes nothing, and clears
    the profile. *)
Theorem onAuthStateChange_callback_settles E s w :
  let r := onAuthStateChange_callback E s w in
  r.1 = Normal tt
  ∧ loading (provider r.2) = false
  ∧ session (provider r.2) = s
  ∧ user (provider r.2) = session_user <$> s
  ∧ profile (provider r.2) =
      match s with
      | Some s' =>
          let p := select_response E (database w) "profiles" "id" (id (session_user s')) in
          match failure (error p) with Some _ => None | None => data p end
      | None => None
      end
  ∧ (s = None →
     added w r.2 = [] ∧ localStorage r.2 = localStorage w ∧ database r.2 = database w).
Proof.
  intros r. subst r. unfold onAuthStateChange_callback, detached. page.
  destruct s as [s'|]; simpl.
  - destruct (failure (error (select_response E (database w) "profiles" "id"
                                (id (session_user s'))))) as [e|]; simpl;
      rewrite import_keeps_provider; simpl; repeat split; discriminate.
  - repeat split. unfold added. simpl. apply drop_all.
Qed.

Lemma apply_appends_get_user data : appends is_get_user (applyDataToLocalStorage data).
Proof.
  intros w. rewrite applyDataToLocalStorage_run. cbn [snd wrote events].
  eexists. split; [reflexivity|].
  unfold apply_events. rewrite !count_app.
  rewrite !count_slot_write by (intros; reflexivity). reflexivity.
Qed.

Lemma upload_appends_get_user E userId d :
  appends is_get_user (uploadInitialSettings E userId d).
Proof.
  intros w. rewrite uploadInitialSettings_run. cbn [snd upserted events].
  eexists. split; [reflexivity|].
  destruct (upsert_response E (database w) _ _ _) as [[e|] db]; reflexivity.
Qed.

(** A run of [importUserSettings] asks once who is signed in. *)
Lemma import_get_user_once E w :
  ∃ evs, events (importUserSettings E w).2 = events w ++ GetUser :: evs
         ∧ count is_get_user evs = 0.
Proof.
  unfold importUserSettings.
  erewrite bind_normal; [|reflexivity].
  match goal with |- context [(?k (emit GetUser w)).2] =>
    assert (Hk : appends is_get_user k)
  end.
  { destruct (auth_user E) as [u|]; [|adds].
    apply appends_bind; [adds|]. intros _.
    apply appends_bind; [adds|]. intros r.
    destruct (failure (error r)); [adds_all|].
    destruct (data r).
    - apply appends_bind; [adds|]. intros _. apply apply_appends_get_user.
    - apply appends_bind; [adds|]. intros _.
      apply appends_bind; [apply appends_gather_any; reflexivity|]. intros d.
      apply appends_bind; [apply appends_lift|]. intros [|]; [|adds].
      apply appends_bind; [adds|]. intros _. apply upload_appends_get_user. }
  destruct (Hk (emit GetUser w)) as (evs & H & C).
  exists evs. rewrite H. cbn [emit events]. rewrite <- app_assoc. split; [reflexivity|exact C].
Qed.

(** One sync per notification: a notification that carries a user fetches
    the profile of that user first and then starts [importUserSettings]
    exactly once, whether the profile was found, missing or the fetch
    failed. *)
Theorem onAuthStateChange_callback_one_sync E s w :
  let w' := (onAuthStateChange_callback E (Some s) w).2 in
  (∃ rest, added w w' = Select "profiles" "id" (id (session_user s)) :: rest)
  ∧ count is_get_user (added w w') = 1.
Proof.
  intros w'. subst w'. unfold onAuthStateChange_callback, detached. page.
  destruct (failure (error (select_response E (database w) "profiles" "id"
                              (id (session_user s))))) as [e|]; simpl;
    match goal with |- context [importUserSettings E ?w1] =>
      destruct (import_get_user_once E w1) as (evs & H & C)
    end;
    cbn [events] in H.
  - rewrite (added_app w _ ([Select "profiles" "id" (id (session_user s));
                             ConsoleError "Error fetching profile:" e]
                            ++ GetUser :: evs)).
    2:{ simpl. rewrite H. repeat rewrite <- app_assoc. reflexivity. }
    split; [eexists; reflexivity|].
    rewrite count_app. unfold count in *. simpl. rewrite C. reflexivity.
  - rewrite (added_app w _ ([Select "profiles" "id" (id (session_user s))]
                            ++ GetUser :: evs)).
    2:{ simpl. rewrite H. repeat rewrite <- app_assoc. reflexivity. }
    split; [eexists; reflexivity|].
    rewrite count_app. unfold count in *. simpl. rewrite C. reflexivity.
Qed.

(* ===================================================================== *)
(** * More of AuthProvider: [register] and the [profiles] table *)
(* ===================================================================== *)

Lemma has_profile_false uid rows :
  Accounts.has_profile uid rows = false → uid ∉ Postgrest.profile_id <$> rows.
Proof.
  induction rows as [|r rows IH]; cbn [Accounts.has_profile existsb]; intros H.
  - apply not_elem_of_nil.
  - apply orb_false_iff in H as [H1 H2]. rewrite fmap_cons.
    apply not_elem_of_cons. split.
    + apply String.eqb_neq in H1. congruence.
    + apply IH. exact H2.
Qed.

Lemma has_username_false name rows :
  Accounts.has_username name rows = false → name ∉ omap Postgrest.username rows.
Proof.
  induction rows as [|r rows IH]; cbn [Accounts.has_username existsb]; intros H.
  - apply not_elem_of_nil.
  - apply orb_false_iff in H as [H1 H2]. cbn [omap list_omap].
    destruct (Postgrest.username r) as [n|].
    + apply not_elem_of_cons. split.
      * apply String.eqb_neq in H1. congruence.
      * apply IH. exact H2.
    + apply IH. exact H2.
Qed.

(** The constraints of [profiles] hold after every insert, accepted or
    refused, if they held before: one row per id, one row per user name,
    user names of 3 to 50 characters. *)
Theorem insert_profile_keeps_constraints caller now db uid username :
  Accounts.profiles_ok (Postgrest.profiles db) →
  Accounts.profiles_ok
    (Postgrest.profiles (Accounts.insert_profile caller now db uid username).2).
Proof.
  intros (Hid & Hname & Hlen). unfold Accounts.insert_profile.
  destruct caller as [c|]; [|repeat split; assumption].
  destruct (negb (String.eqb (id c) uid)); [repeat split; assumption|].
  destruct ((3 <=? Accounts.char_length username)
            && (Accounts.char_length username <=? 50)) eqn:Hl;
    [|repeat split; assumption].
  cbn [negb].
  destruct (Accounts.has_profile uid (Postgrest.profiles db)) eqn:Hp;
    [repeat split; assumption|].
  destruct (Accounts.has_username username (Postgrest.profiles db)) eqn:Hu;
    [repeat split; assumption|].
  cbn [snd Postgrest.profiles]. split; [|split].
  - rewrite fmap_app. apply NoDup_app. split; [exact Hid|]. split.
    + intros x Hx Hx'. apply list_elem_of_singleton in Hx'. subst x.
      apply (has_profile_false _ _ Hp). exact Hx.
    + apply NoDup_singleton.
  - rewrite omap_app. apply NoDup_app. split; [exact Hname|]. split.
    + intros x Hx Hx'. apply list_elem_of_singleton in Hx'. subst x.
      apply (has_username_false _ _ Hu). exact Hx.
    + apply NoDup_singleton.
  - apply Forall_app. split; [exact Hlen|]. apply Forall_singleton.
    intros n [= <-]. apply andb_true_iff in Hl as [H3 H50].
    apply Nat.leb_le in H3. apply Nat.leb_le in H50. split; assumption.
Qed.

Lemma insert_profile_keeps_constraints_witness :
  Accounts.profiles_ok (Postgrest.profiles no_rows)
  ∧ Accounts.profiles_ok
      (Postgrest.profiles
         (Accounts.insert_profile (Some u1) "2024-05-01 10:00:01+00" no_rows "u1" "dilma").2).
Proof.
  assert (H : Accounts.profiles_ok (Postgrest.profiles no_rows)).
  { split; [apply NoDup_nil_2|]. split; [apply NoDup_nil_2|apply Forall_nil_2]. }
  split; [exact H|].
  apply (insert_profile_keeps_constraints (Some u1) "2024-05-01 10:00:01+00" no_rows
           "u1" "dilma" H).
Defined.

Lemma insert_profile_result caller now db uid username :
  let r := Accounts.insert_profile caller now db uid username in
  match r.1 with
  | Some _ => r.2 = db
  | None =>
      r.2 = {| Postgrest.user_settings := Postgrest.user_settings db;
               Postgrest.profiles :=
                 Postgrest.profiles db
                 ++ [{| Postgrest.profile_id := uid;
                        Postgrest.username := Some username;
                        Postgrest.created_at := Some now |}] |}
  end.
Proof.
  unfold Accounts.insert_profile.
  destruct caller as [c|]; [|reflexivity].
  destruct (negb (String.eqb (id c) uid)); [reflexivity|].
  destruct (negb _); [reflexivity|].
  destruct (Accounts.has_profile _ _); [reflexivity|].
  destruct (Accounts.has_username _ _); reflexivity.
Qed.

(** [register] changes the service all or nothing: when it reports
    success the table [profiles] has gained exactly the row of the new
    user's id and the given user name; when it reports failure the service
    is as before (the account sign-up made apart); [user_settings] is never
    touched. *)
Theorem register_all_or_nothing A email password username st :
  let r := Accounts.register A email password username st in
  Postgrest.user_settings (Accounts.db r.2) = Postgrest.user_settings (Accounts.db st)
  ∧ (Accounts.success r.1 = true →
     ∃ u, Accounts.signup_user (Accounts.signUp A email password) = Some u
          ∧ Postgrest.profiles (Accounts.db r.2) =
              Postgrest.profiles (Accounts.db st)
              ++ [{| Postgrest.profile_id := id u;
                     Postgrest.username := Some username;
                     Postgrest.created_at := Some (Accounts.now A) |}])
  ∧ (Accounts.success r.1 = false → Accounts.db r.2 = Accounts.db st).
Proof.
  intros r. subst r. unfold Accounts.register.
  destruct (Accounts.signup_error _) as [e|]; [repeat split; discriminate|].
  destruct (Accounts.signup_user _) as [u|] eqn:Hu; [|repeat split; discriminate].
  destruct (Accounts.insert_fault A) as [f|]; [repeat split; discriminate|].
  cbn [Accounts.db Accounts.signed_in].
  pose proof (insert_profile_result
                (Accounts.session_after (Accounts.signUp A email password)
                   (Accounts.signed_in st))
                (Accounts.now A) (Accounts.db st) (id u) username) as H.
  cbv zeta in H.
  destruct (Accounts.insert_profile _ _ _ _ _) as [[pe|] db']; cbn [fst snd] in *;
    subst db'; cbn [fst snd Accounts.db Accounts.success].
  - repeat split; discriminate.
  - split; [reflexivity|]. split; [|discriminate].
    intros _. exists u. split; reflexivity.
Qed.

(** An account without profile.  When the sign-up is accepted but the
    profile row is refused, [register] reports failure with the text that
    the user was created: so it is when the user name has fewer than 3 or
    more than 50 characters, when the sign-up returned no session and the
    client is not signed in as the new user (the INSERT policy), and when
    the name or the id is taken.  The sign-up was made, and [profiles] is
    as before. *)
Theorem register_account_without_profile A email password username st u :
  Accounts.signup_error (Accounts.signUp A email password) = None →
  Accounts.signup_user (Accounts.signUp A email password) = Some u →
  Accounts.char_length username < 3
  ∨ 50 < Accounts.char_length username
  ∨ (∀ c, Accounts.session_after (Accounts.signUp A email password)
            (Accounts.signed_in st) = Some c → id c ≠ id u)
  ∨ Accounts.has_username username (Postgrest.profiles (Accounts.db st)) = true
  ∨ Accounts.has_profile (id u) (Postgrest.profiles (Accounts.db st)) = true →
  let r := Accounts.register A email password username st in
  Accounts.success r.1 = false
  ∧ (∃ e, Accounts.message r.1 =
            Some ("User created, but failed to create profile: " +:+ message e))
  ∧ Accounts.db r.2 = Accounts.db st
  ∧ Accounts.SignUp email password ∈ Accounts.calls r.2.
Proof.
  intros He Hu Hwhy r. subst r. unfold Accounts.register. rewrite He, Hu.
  assert (Hin : ∀ l1 l2 : list Accounts.call,
            Accounts.SignUp email password
            ∈ ((l1 ++ [Accounts.SignUp email password]) ++ l2)).
  { intros l1 l2. apply elem_of_app. left. apply elem_of_app. right.
    apply list_elem_of_singleton. reflexivity. }
  destruct (Accounts.insert_fault A) as [f|].
  { cbn [fst snd Accounts.success Accounts.message Accounts.db Accounts.calls].
    repeat split; [exists f; reflexivity|].
    apply elem_of_app. left. apply Hin. }
  cbn [Accounts.db Accounts.signed_in Accounts.calls].
  pose proof (insert_profile_result
                (Accounts.session_after (Accounts.signUp A email password)
                   (Accounts.signed_in st))
                (Accounts.now A) (Accounts.db st) (id u) username) as H.
  cbv zeta in H.
  assert (Hrefused : (Accounts.insert_profile
                        (Accounts.session_after (Accounts.signUp A email password)
                           (Accounts.signed_in st))
                        (Accounts.now A) (Accounts.db st) (id u) username).1 ≠ None).
  { unfold Accounts.insert_profile.
    destruct (Accounts.session_after _ _) as [c|]; [|discriminate].
    destruct (String.eqb_spec (id c) (id u)) as [Hc|Hc]; [|discriminate]. cbn [negb].
    destruct ((3 <=? Accounts.char_length username)
              && (Accounts.char_length username <=? 50)) eqn:Hl; [|discriminate].
    cbn [negb]. apply andb_true_iff in Hl as [H3 H50].
    apply Nat.leb_le in H3. apply Nat.leb_le in H50.
    destruct (Accounts.has_profile _ _) eqn:Hp; [discriminate|].
    destruct (Accounts.has_username _ _) eqn:Hn; [discriminate|].
    destruct Hwhy as [Hw|[Hw|[Hw|[Hw|Hw]]]]; try lia; try congruence.
    exfalso. apply (Hw c eq_refl). exact Hc. }
  destruct (Accounts.insert_profile _ _ _ _ _) as [[pe|] db']; cbn [fst snd] in *;
    [|contradiction].
  subst db'. cbn [fst snd Accounts.success Accounts.message Accounts.db Accounts.calls].
  repeat split; [exists pe; reflexivity|].
  apply elem_of_app. left. apply Hin.
Qed.

Lemma register_account_without_profile_witness :
  Accounts.char_length "ab" < 3
  ∧ Accounts.success
      (Accounts.register Accounts.accepting "u1" "secret" "ab" Accounts.fresh).1 = false.
Proof.
  split; [vm_compute; lia|].
  apply (register_account_without_profile Accounts.accepting "u1" "secret" "ab"
           Accounts.fresh {| id := "u1" |} eq_refl eq_refl).
  left. vm_compute. lia.
Defined.

(** ** [JSON.parse] after [JSON.stringify] *)




Lemma ord_bound a : (ord a < 256)%N.
Proof. apply N_ascii_bounded. Qed.



































(** ** Reading back what was applied *)







